(** * Video Q&A with Gemini: a shallow embedding of [app.py]

    The application is a Streamlit script: every user interaction re-runs the
    script from top to bottom against the persistent [st.session_state].  The
    script talks to three outside parties: the remote GenAI service (the
    [client] object), the local disk (the staged temp file) and the page it
    renders.  The embedding threads one explicit state through the script:
    the three session fields, the disk, and a chronological trace of the
    events the script caused.  The outside parties are oracles: what a remote
    call answers is a function of everything that happened before it. *)

From Stdlib Require Import ZArith String Ascii List Lia.
From Stdlib.Strings Require Import Byte.
From stdpp Require Import base option list gmap strings pretty.

Local Open Scope string_scope.
Local Open Scope Z_scope.

(** ** Data model *)

(** The remote file object ([google.genai.types.File]); the script reads
    [video_file.name] and [video_file.state.name] only. *)
Record File := mkFile {
  name : string;
  state_name : string
}.

(** The object returned by [st.file_uploader]: its [.name] and what [.read()]
    gives. *)
Record UploadedFile := mkUploaded {
  upload_name : string;
  upload_bytes : list byte
}.

(** An element of a [contents=[...]] list. *)
Inductive Part :=
| PFile (f : File)
| PText (s : string)
| PNone.

(** The four remote operations the script calls on [client]. *)
Inductive Call :=
| FilesUpload (path : string)
| FilesGet (handle : string)
| CountTokens (model : string) (contents : list Part)
| GenerateContent (model : string) (contents : list Part).

(** Where a message is rendered, and how. *)
Inductive Place := Page | Placeholder | Sidebar | ChatMessage (role : string).
Inductive Kind := KInfo | KError | KSuccess | KWarning | KWrite | KMarkdown | KEmpty.

Inductive Event :=
| ECall (c : Call)
| ESleep (seconds : Z)
| EShow (p : Place) (k : Kind) (msg : string).

(** [st.session_state]: the three keys the script initialises at lines 23-28. *)
Record SessionState := mkSession {
  chat_history : list (string * string);
  processed_video : option File;
  current_file_name : option string
}.

(** The values the three keys get when they are absent (a fresh session). *)
Definition initial_session : SessionState :=
  {| chat_history := []; processed_video := None; current_file_name := None |}.

(** The state the script runs in.  Each event of the trace is recorded with
    the session state at the moment it happened, so that statements about the
    order of a session update and a remote call can be read off the trace. *)
Record State := mkState {
  session_state : SessionState;
  disk : gmap string (list byte);
  trace : list (SessionState * Event)
}.

Definition history (st : State) : list Event := (trace st).*2.

(** ** Python control flow: results, exceptions, unfinished loops *)

Inductive Outcome (A : Type) :=
| Ret (a : A)
| Raise (e : string).
Arguments Ret {A} a.
Arguments Raise {A} e.

(** A computation either has not finished within the fuel it was given
    ([None]), or ends by returning or raising, in a new state. *)
Definition M (A : Type) : Type := State → option (Outcome A * State).

Definition ret {A} (a : A) : M A := λ st, Some (Ret a, st).
Definition raise {A} (e : string) : M A := λ st, Some (Raise e, st).

Definition bind {A B} (m : M A) (k : A → M B) : M B := λ st,
  match m st with
  | None => None
  | Some (Ret a, st') => k a st'
  | Some (Raise e, st') => Some (Raise e, st')
  end.

Declare Scope py_scope.
Delimit Scope py_scope with py.
Notation "x <- m ;; k" := (bind m (λ x, k))
  (at level 100, m at next level, k at level 200, right associativity) : py_scope.
Notation "m ;; k" := (bind m (λ _, k))
  (at level 100, k at level 200, right associativity) : py_scope.
Local Open Scope py_scope.

(** [try: body except Exception as e: handler e] *)
Definition try_except {A} (body : M A) (handler : string → M A) : M A := λ st,
  match body st with
  | None => None
  | Some (Ret a, st') => Some (Ret a, st')
  | Some (Raise e, st') => handler e st'
  end.

(** [try: body finally: cleanup]; an exception of the cleanup replaces the
    outcome of the body. *)
Definition try_finally {A} (body : M A) (cleanup : M unit) : M A := λ st,
  match body st with
  | None => None
  | Some (out, st') =>
      match cleanup st' with
      | None => None
      | Some (Ret _, st'') => Some (out, st'')
      | Some (Raise e, st'') => Some (Raise e, st'')
      end
  end.

Definition lift {A} (o : Outcome A) : M A := λ st, Some (o, st).

Definition emit (ev : Event) : M unit := λ st,
  Some (Ret tt, {| session_state := session_state st;
                   disk := disk st;
                   trace := trace st ++ [(session_state st, ev)] |}).

Definition get_session : M SessionState := λ st, Some (Ret (session_state st), st).

Definition set_session (f : SessionState → SessionState) : M unit := λ st,
  Some (Ret tt, {| session_state := f (session_state st);
                   disk := disk st;
                   trace := trace st |}).

Definition get_disk : M (gmap string (list byte)) := λ st, Some (Ret (disk st), st).

Definition set_disk (f : gmap string (list byte) → gmap string (list byte)) : M unit := λ st,
  Some (Ret tt, {| session_state := session_state st;
                   disk := f (disk st);
                   trace := trace st |}).

Definition get_history : M (list Event) := λ st, Some (Ret (history st), st).

(** ** Python numbers and their formatting *)

(** A finite binary64 value [mant * 2^expo].  Python's [float] is IEEE 754
    binary64: 53 bits of mantissa, exponents from [-1074] to [971]. *)
Record Float := mkFloat {
  mant : Z;
  expo : Z
}.

(** The integer nearest to [num / den] ([den > 0]), ties to the even one. *)
Definition round_half_even (num den : Z) : Z :=
  let q := num / den in
  let r := num mod den in
  if 2 * r <? den then q
  else if den <? 2 * r then q + 1
  else if Z.even q then q else q + 1.

(** [a / b] on two positive [int]s: the correctly rounded quotient. *)
Definition true_div_pos (a b : Z) : Float :=
  let k := Z.log2 a - Z.log2 b in
  let e := if a * 2 ^ Z.max 0 (- k) <? b * 2 ^ Z.max 0 k then k - 53 else k - 52 in
  let e := Z.max e (-1074) in
  let m := round_half_even (a * 2 ^ Z.max 0 (- e)) (b * 2 ^ Z.max 0 e) in
  if m =? 2 ^ 53 then {| mant := 2 ^ 52; expo := e + 1 |}
  else {| mant := m; expo := e |}.

(** Python's [a / b] on [int]s ([long_true_divide]). *)
Definition int_true_div (a b : Z) : Outcome Float :=
  if b =? 0 then Raise "division by zero"
  else if a =? 0 then Ret {| mant := 0; expo := 0 |}
  else
    let f := true_div_pos (Z.abs a) (Z.abs b) in
    if 971 <? expo f then Raise "integer division result too large for a float"
    else if Z.sgn a =? Z.sgn b then Ret f
    else Ret {| mant := - mant f; expo := expo f |}.

(** [str(n)] for an [int]. *)
Definition digits (n : Z) : string := pretty n.

(** [f"{x:.2f}"]: the value rounded to hundredths, ties to even. *)
Definition format_2f (x : Float) : string :=
  let n := round_half_even (Z.abs (mant x) * 100 * 2 ^ Z.max 0 (expo x))
                           (2 ^ Z.max 0 (- expo x)) in
  (if mant x <? 0 then "-" else "") ++
  digits (n / 100) ++ "." ++ digits (n mod 100 / 10) ++ digits (n mod 10).

(** Commas every three digits, on the reversed digit list. *)
Fixpoint group3 (rev_digits : list ascii) (seen : nat) : list ascii :=
  match rev_digits with
  | [] => []
  | c :: rest =>
      match seen with
      | 3%nat => "," %char :: c :: group3 rest 1
      | _ => c :: group3 rest (S seen)
      end
  end.

(** [f"{n:,}"] *)
Definition format_thousands (n : Z) : string :=
  (if n <? 0 then "-" else "") ++
  string_of_list_ascii
    (rev (group3 (rev (list_ascii_of_string (digits (Z.abs n)))) 0)).

(** ** The outside world *)

(** The remote service behind [client].  Each operation answers with a value
    or raises; the answer may depend on everything the script did so far
    (calls made, seconds slept). *)
Record Client := mkClient {
  files_upload : list Event → string → list byte → Outcome File;
  files_get : list Event → string → Outcome File;
  models_count_tokens : list Event → string → list Part → Outcome Z;
  models_generate_content : list Event → string → list Part → Outcome string
}.

(** The local temp directory: the path [NamedTemporaryFile] creates given the
    files that exist, and whether writing the bytes to it succeeds. *)
Record Os := mkOs {
  named_temporary_file : gmap string (list byte) → Outcome string;
  file_write : string → list byte → Outcome unit
}.

Section App.

Variable client : Client.
Variable os : Os.

Definition call_files_upload (path : string) : M File :=
  d <- get_disk ;;
  match d !! path with
  | None => raise "FileNotFoundError"
  | Some data =>
      h <- get_history ;;
      emit (ECall (FilesUpload path)) ;;
      lift (files_upload client h path data)
  end.

Definition call_files_get (handle : string) : M File :=
  h <- get_history ;;
  emit (ECall (FilesGet handle)) ;;
  lift (files_get client h handle).

Definition call_count_tokens (model : string) (contents : list Part) : M Z :=
  h <- get_history ;;
  emit (ECall (CountTokens model contents)) ;;
  lift (models_count_tokens client h model contents).

Definition call_generate_content (model : string) (contents : list Part) : M string :=
  h <- get_history ;;
  emit (ECall (GenerateContent model contents)) ;;
  lift (models_generate_content client h model contents).

Definition sleep (seconds : Z) : M unit := emit (ESleep seconds).

Definition show (p : Place) (k : Kind) (msg : string) : M unit := emit (EShow p k msg).

(** ** [process_video] (lines 32-68) *)

(** Lines 39-41: [with tempfile.NamedTemporaryFile(delete=False, suffix=".mp4")].
    The file exists from its creation on; leaving the [with] block closes it
    and, because of [delete=False], does not remove it. *)
Definition stage (uploaded_file : UploadedFile) : M string :=
  d <- get_disk ;;
  tmp_file_path <- lift (named_temporary_file os d) ;;
  set_disk (λ d, <[tmp_file_path := []]> d) ;;
  lift (file_write os tmp_file_path (upload_bytes uploaded_file)) ;;
  set_disk (λ d, <[tmp_file_path := upload_bytes uploaded_file]> d) ;;
  ret tmp_file_path.

(** Lines 52-54: [while video_file.state.name == "PROCESSING"].  [fuel]
    bounds the number of iterations the model follows; the source has no
    such bound. *)
Fixpoint poll (fuel : nat) (video_file : File) : M File :=
  if String.eqb (state_name video_file) "PROCESSING" then
    match fuel with
    | O => λ _, None
    | S fuel' =>
        sleep 2 ;;
        video_file' <- call_files_get (name video_file) ;;
        poll fuel' video_file'
    end
  else ret video_file.

(** Lines 66-68: the [finally] block. *)
Definition cleanup (tmp_file_path : string) : M unit :=
  d <- get_disk ;;
  if bool_decide (is_Some (d !! tmp_file_path))
  then set_disk (λ d, delete tmp_file_path d)
  else ret tt.

(** Lines 44-63: the body of the [try]. *)
Definition upload_and_wait (fuel : nat) (tmp_file_path : string) : M (option File) :=
  show Placeholder KInfo "Uploading video to Google GenAI..." ;;
  video_file <- call_files_upload tmp_file_path ;;
  show Placeholder KInfo "Processing video context (this may take a moment)..." ;;
  video_file <- poll fuel video_file ;;
  if String.eqb (state_name video_file) "FAILED" then
    show Placeholder KError "Video processing failed." ;;
    ret None
  else
    show Placeholder KSuccess "Video processed and ready for analysis!" ;;
    sleep 2 ;;
    show Placeholder KEmpty "" ;;
    ret (Some video_file).

Definition process_video (fuel : nat) (uploaded_file : UploadedFile) : M (option File) :=
  tmp_file_path <- stage uploaded_file ;;
  try_finally (upload_and_wait fuel tmp_file_path) (cleanup tmp_file_path).

(** ** The script body (lines 73-168) *)

(** The widget values of one run of the script. *)
Record Inputs := mkInputs {
  api_key : string;
  model_name : string;
  uploaded_file : option UploadedFile;
  check_video_vision : bool;
  user_query : option string
}.

(** Truth value of a Python [str]. *)
Definition truthy (s : string) : bool := negb (String.eqb s "").

Definition set_processed_video (v : option File) : M unit :=
  set_session (λ ss, {| chat_history := chat_history ss;
                        processed_video := v;
                        current_file_name := current_file_name ss |}).

Definition set_chat_history (h : list (string * string)) : M unit :=
  set_session (λ ss, {| chat_history := h;
                        processed_video := processed_video ss;
                        current_file_name := current_file_name ss |}).

Definition set_current_file_name (n : option string) : M unit :=
  set_session (λ ss, {| chat_history := chat_history ss;
                        processed_video := processed_video ss;
                        current_file_name := n |}).

(** [st.session_state.chat_history.append(turn)] *)
Definition with_turn (turn : string * string) (ss : SessionState) : SessionState :=
  {| chat_history := chat_history ss ++ [turn];
     processed_video := processed_video ss;
     current_file_name := current_file_name ss |}.

Definition append_turn (turn : string * string) : M unit :=
  set_session (with_turn turn).

(** [st.session_state.processed_video] as an element of a [contents] list. *)
Definition video_part (ss : SessionState) : Part :=
  match processed_video ss with
  | Some v => PFile v
  | None => PNone
  end.

(** Lines 79-90: the body of [if uploaded_file:]. *)
Definition on_upload (fuel : nat) (uploaded : UploadedFile) : M unit :=
  ss <- get_session ;;
  if bool_decide (current_file_name ss ≠ Some (upload_name uploaded)) then
    set_processed_video None ;;
    set_chat_history [] ;;
    set_current_file_name (Some (upload_name uploaded)) ;;
    video_object <- process_video fuel uploaded ;;
    set_processed_video video_object
  else ret tt.

(** Lines 99-115: the Video Inspector. *)
Definition inspector (model : string) : M unit :=
  try_except
    (ss <- get_session ;;
     total_tokens <- call_count_tokens model [video_part ss] ;;
     show Sidebar KWrite ("**Total Tokens:** " ++ format_thousands total_tokens) ;;
     est_seconds <- lift (int_true_div total_tokens 263) ;;
     show Sidebar KWrite
       ("**Est. Processed Duration:** " ++ format_2f est_seconds ++ " seconds"))
    (λ e, show Sidebar KError ("Could not count tokens: " ++ e)).

Definition debug_prompt : string :=
  "List the timestamps of the start and end of this video. Then describe the visual content of the very first second and the very last second.".

(** Lines 118-127: the "Check Video Vision" button. *)
Definition debug_vision (model : string) (clicked : bool) : M unit :=
  if clicked then
    ss <- get_session ;;
    debug_response <- call_generate_content model [video_part ss; PText debug_prompt] ;;
    show Sidebar KInfo debug_response
  else ret tt.

(** Lines 130-132 *)
Fixpoint display_history (h : list (string * string)) : M unit :=
  match h with
  | [] => ret tt
  | (role, message) :: rest =>
      show (ChatMessage role) KMarkdown message ;;
      display_history rest
  end.

(** Lines 137-160: what a submitted chat input does. *)
Definition ask (model : string) (query : string) : M unit :=
  show (ChatMessage "user") KMarkdown query ;;
  append_turn ("user", query) ;;
  try_except
    (ss <- get_session ;;
     answer <- call_generate_content model [video_part ss; PText query] ;;
     show (ChatMessage "assistant") KMarkdown answer ;;
     append_turn ("assistant", answer))
    (λ e, show (ChatMessage "assistant") KError ("Error generating response: " ++ e)).

(** Lines 135-137: [st.chat_input] gives [None] or the submitted text. *)
Definition chat_input (model : string) (query : option string) : M unit :=
  match query with
  | Some q => if truthy q then ask model q else ret tt
  | None => ret tt
  end.

(** Lines 93-165: everything below the uploader. *)
Definition chat_interface (inp : Inputs) : M unit :=
  ss <- get_session ;;
  if bool_decide (is_Some (processed_video ss)) then
    inspector (model_name inp) ;;
    debug_vision (model_name inp) (check_video_vision inp) ;;
    ss <- get_session ;;
    display_history (chat_history ss) ;;
    chat_input (model_name inp) (user_query inp)
  else if bool_decide (is_Some (uploaded_file inp)) then
    show Page KWarning "Video upload failed. Please try again."
  else
    show Page KInfo "Please upload a video to start chatting.".

(** One run of the script. *)
Definition script (fuel : nat) (inp : Inputs) : M unit :=
  if truthy (api_key inp) then
    match uploaded_file inp with
    | Some uploaded => on_upload fuel uploaded
    | None => ret tt
    end ;;
    chat_interface inp
  else
    show Page KWarning "Please enter your Google API Key in the sidebar to proceed.".

(** A run that raises shows the exception and ends; the session state it
    reached stays.  [None]: the run is still polling when the fuel is spent. *)
Definition rerun (fuel : nat) (inp : Inputs) (st : State) : option State :=
  match script fuel inp st with
  | Some (_, st') => Some st'
  | None => None
  end.

(** A session: the script run once per interaction. *)
Fixpoint reruns (fuel : nat) (inps : list Inputs) (st : State) : option State :=
  match inps with
  | [] => Some st
  | inp :: rest =>
      match rerun fuel inp st with
      | Some st' => reruns fuel rest st'
      | None => None
      end
  end.

(** ** What the poll loop sees *)

(** The handle after [n] rounds of "sleep 2, re-fetch", whatever its status:
    the sequence of answers the remote gives to an ingestion that keeps
    asking.  Unlike [poll] it needs no fuel. *)
Fixpoint refetched (n : nat) (video_file : File) : M File :=
  match n with
  | O => ret video_file
  | S n' =>
      sleep 2 ;;
      video_file' <- call_files_get (name video_file) ;;
      refetched n' video_file'
  end.

(** The handle an ingestion holds after [n] re-fetches: the upload of the
    staged file, then [refetched]. *)
Definition submitted (n : nat) (tmp_file_path : string) : M File :=
  show Placeholder KInfo "Uploading video to Google GenAI..." ;;
  video_file <- call_files_upload tmp_file_path ;;
  show Placeholder KInfo "Processing video context (this may take a moment)..." ;;
  refetched n video_file.

Definition status_after (n : nat) (uploaded : UploadedFile) : M File :=
  tmp_file_path <- stage uploaded ;;
  submitted n tmp_file_path.

(** An observation ends the loop: a status other than PROCESSING, or an
    exception. *)
Definition leaves_processing (out : Outcome File) : Prop :=
  match out with
  | Ret v => state_name v ≠ "PROCESSING"
  | Raise _ => True
  end.

Definition terminates {A} (m : nat → M A) (st : State) : Prop :=
  ∃ fuel r, m fuel st = Some r.

(** An ingestion ends, by returning or by raising. *)
Definition ingest_terminates (uploaded : UploadedFile) (st : State) : Prop :=
  terminates (λ fuel, process_video fuel uploaded) st.

(** The remote reports, at some re-fetch, a status other than PROCESSING. *)
Definition status_leaves_processing (uploaded : UploadedFile) (st : State) : Prop :=
  ∃ n v st', status_after n uploaded st = Some (Ret v, st') ∧
             state_name v ≠ "PROCESSING".

(** The remote keeps reporting PROCESSING for at least [fuel] re-fetches. *)
Definition still_processing (fuel : nat) (uploaded : UploadedFile) (st : State) : Prop :=
  ∀ n, (n ≤ fuel)%nat →
    ∃ v st', status_after n uploaded st = Some (Ret v, st') ∧
             state_name v = "PROCESSING".

(** ** Auxiliary definitions for the proofs *)

(** The part of the [try] block before the loop, and the part after it. *)
Definition handshake (path : string) : M File :=
  show Placeholder KInfo "Uploading video to Google GenAI..." ;;
  video_file <- call_files_upload path ;;
  show Placeholder KInfo "Processing video context (this may take a moment)..." ;;
  ret video_file.

Definition verdict (video_file : File) : M (option File) :=
  if String.eqb (state_name video_file) "FAILED" then
    show Placeholder KError "Video processing failed." ;;
    ret None
  else
    show Placeholder KSuccess "Video processed and ready for analysis!" ;;
    sleep 2 ;;
    show Placeholder KEmpty "" ;;
    ret (Some video_file).

End App.

(** The events an ingestion can cause. *)
Definition ingestion_event (ev : Event) : Prop :=
  match ev with
  | ECall (FilesUpload _) | ECall (FilesGet _) => True
  | ESleep seconds => seconds = 2
  | EShow Placeholder _ _ => True
  | _ => False
  end.

(** ** Vocabulary of the statements *)

(** The session state lines 83-85 leave behind. *)
Definition cleared_session (file_name : string) : SessionState :=
  {| chat_history := []; processed_video := None; current_file_name := Some file_name |}.

(** The state in which the ingestion of a new upload starts. *)
Definition begin_ingest (uploaded : UploadedFile) (st : State) : State :=
  {| session_state := cleared_session (upload_name uploaded);
     disk := disk st;
     trace := trace st |}.

(** The remote calls among some recorded events, in order. *)
Definition calls_of (evs : list (SessionState * Event)) : list Call :=
  omap (λ x, match x.2 with ECall c => Some c | _ => None end) evs.

Definition is_show (ev : Event) : Prop :=
  match ev with EShow _ _ _ => True | _ => False end.

(** A run that brings no new upload: the uploader is empty or holds a file
    of the given name. *)
Definition no_new_upload (file_name : string) (inp : Inputs) : Prop :=
  match uploaded_file inp with
  | Some uploaded => upload_name uploaded = file_name
  | None => True
  end.

(** A recorded event respects the guard of line 93: a generation request is
    made under a session state that holds a handle, and that handle is the
    first element of its contents. *)
Definition gated (x : SessionState * Event) : Prop :=
  match x.2 with
  | ECall (GenerateContent _ contents) =>
      ∃ v, processed_video x.1 = Some v ∧ head contents = Some (PFile v)
  | _ => True
  end.

(** A computation that leaves the session state and the disk alone and whose
    events all satisfy [Q]; every event is then recorded with the session
    state the computation started in. *)
Definition frames {A} (Q : Event → Prop) (m : M A) : Prop :=
  ∀ st r st', m st = Some (r, st') →
    session_state st' = session_state st ∧
    disk st' = disk st ∧
    ∃ evs, trace st' = (trace st ++ evs)%list ∧
           Forall (λ x, x.1 = session_state st ∧ Q x.2) evs.


(** The session property behind that guard: the handle [v] is stored. *)
Definition holds_handle (v : File) (ss : SessionState) : Prop :=
  processed_video ss = Some v.

(** A computation that keeps the session property [I] and whose recorded
    events all satisfy [Q], when started in a session state with [I]. *)
Definition emits {A} (I : SessionState → Prop) (Q : SessionState * Event → Prop)
    (m : M A) : Prop :=
  ∀ st r st', I (session_state st) → m st = Some (r, st') →
    I (session_state st') ∧
    ∃ evs, trace st' = (trace st ++ evs)%list ∧ Forall Q evs.

(** [f] is [a / b] correctly rounded to binary64: zero for a zero numerator,
    and otherwise a 53-bit mantissa with [|f - a/b|] at most half a unit in
    the last place, [2^expo f / 2].  Both sides of the inequality are scaled
    by [b] and by the power of two that clears the negative exponent. *)
Definition nearest_double (f : Float) (a b : Z) : Prop :=
  (a = 0 ∧ mant f = 0) ∨
  (2 ^ 52 ≤ mant f < 2 ^ 53 ∧
   2 * Z.abs (mant f * (b * 2 ^ Z.max 0 (expo f)) - a * 2 ^ Z.max 0 (- expo f))
     ≤ b * 2 ^ Z.max 0 (expo f)).

(** When [a / b] lies exactly halfway between two binary64 values, [f] is
    the one with the even mantissa. *)
Definition ties_to_even (f : Float) (a b : Z) : Prop :=
  2 * Z.abs (mant f * (b * 2 ^ Z.max 0 (expo f)) - a * 2 ^ Z.max 0 (- expo f))
    = b * 2 ^ Z.max 0 (expo f) →
  Z.even (mant f) = true.

(** [n] hundredths written out: the integer part, a point, two digits. *)
Definition hundredths_string (n : Z) : string :=
  digits (n / 100) ++ "." ++ digits (n mod 100 / 10) ++ digits (n mod 10).

(** [n / 100] is the value of [f] rounded to two decimals: [n] is an integer
    nearest to [100 f], and the even one when two are equally near.  Both
    sides of the inequality are scaled by the power of two that clears the
    negative exponent of [f]. *)
Definition nearest_hundredth (n : Z) (f : Float) : Prop :=
  2 * Z.abs (n * 2 ^ Z.max 0 (- expo f) - mant f * 100 * 2 ^ Z.max 0 (expo f))
    ≤ 2 ^ Z.max 0 (- expo f) ∧
  (2 * Z.abs (n * 2 ^ Z.max 0 (- expo f) - mant f * 100 * 2 ^ Z.max 0 (expo f))
     = 2 ^ Z.max 0 (- expo f) →
   Z.even n = true).

(** ** Example worlds *)

Module Examples.

Definition sleeps (h : list Event) : nat :=
  length (List.filter (λ ev, match ev with ESleep _ => true | _ => false end) h).

(** A disk with room, and one that is full. *)
Definition roomy_os : Os :=
  {| named_temporary_file := λ _, Ret "/tmp/tmpk3v9x2.mp4";
     file_write := λ _ _, Ret tt |}.

Definition full_os : Os :=
  {| named_temporary_file := λ _, Ret "/tmp/tmpk3v9x2.mp4";
     file_write := λ _ _, Raise "[Errno 28] No space left on device" |}.

(** A service that needs four seconds to process a video, counts 2630
    tokens and answers every prompt. *)
Definition good_client : Client :=
  {| files_upload := λ _ _ _, Ret (mkFile "files/abc123" "PROCESSING");
     files_get := λ h handle,
       if (2 <=? sleeps h)%nat then Ret (mkFile handle "ACTIVE")
       else Ret (mkFile handle "PROCESSING");
     models_count_tokens := λ _ _ _, Ret 2630;
     models_generate_content := λ _ _ _, Ret "A cat jumps." |}.

(** The same service when generation is down. *)
Definition mute_client : Client :=
  {| files_upload := files_upload good_client;
     files_get := files_get good_client;
     models_count_tokens := λ _ _ _, Raise "503 UNAVAILABLE";
     models_generate_content := λ _ _ _, Raise "503 UNAVAILABLE" |}.

(** A service that rejects the video. *)
Definition rejecting_client : Client :=
  {| files_upload := λ _ _ _, Ret (mkFile "files/abc123" "PROCESSING");
     files_get := λ _ handle, Ret (mkFile handle "FAILED");
     models_count_tokens := λ _ _ _, Ret 2630;
     models_generate_content := λ _ _ _, Ret "A cat jumps." |}.

(** A service whose status endpoint is unreachable. *)
Definition unreachable_client : Client :=
  {| files_upload := λ _ _ _, Ret (mkFile "files/abc123" "PROCESSING");
     files_get := λ _ _, Raise "ConnectError";
     models_count_tokens := λ _ _ _, Ret 2630;
     models_generate_content := λ _ _ _, Ret "A cat jumps." |}.

(** A service that never finishes processing. *)
Definition stuck_client : Client :=
  {| files_upload := λ _ _ _, Ret (mkFile "files/abc123" "PROCESSING");
     files_get := λ _ handle, Ret (mkFile handle "PROCESSING");
     models_count_tokens := λ _ _ _, Ret 2630;
     models_generate_content := λ _ _ _, Ret "A cat jumps." |}.

Definition fresh : State :=
  {| session_state := initial_session; disk := ∅; trace := [] |}.

Definition clip_a : UploadedFile := mkUploaded "a.mp4" [x00; x01; x02].
Definition clip_a' : UploadedFile := mkUploaded "a.mp4" [xff].
Definition clip_b : UploadedFile := mkUploaded "b.mp4" [x03].

Definition handle_a : File := mkFile "files/abc123" "ACTIVE".

(** A session that holds a processed video and one exchange about it. *)
Definition ready : State :=
  {| session_state :=
       {| chat_history := [("user", "What happens at 0:05?"); ("assistant", "A cat jumps.")];
          processed_video := Some handle_a;
          current_file_name := Some "a.mp4" |};
     disk := ∅;
     trace := [] |}.

Definition upload_of (uploaded : UploadedFile) : Inputs :=
  mkInputs "key" "gemini-1.5-flash" (Some uploaded) false None.

Definition question_on (uploaded : UploadedFile) (query : string) : Inputs :=
  mkInputs "key" "gemini-1.5-flash" (Some uploaded) false (Some query).

End Examples.

(** ** Vocabulary of the statements about whole runs *)

(** Everything some recorded events put into chat messages, of whatever
    kind, as (role, kind, text): the [st.markdown] of a turn and also the
    [st.error] of a failed question. *)
Definition chat_rendered (evs : list (SessionState * Event))
    : list (string * Kind * string) :=
  omap (λ x, match x.2 with
             | EShow (ChatMessage role) k msg => Some (role, k, msg)
             | _ => None
             end) evs.

(** A transcript as the chat messages that render it. *)
Definition as_markdown (h : list (string * string)) : list (string * Kind * string) :=
  map (λ turn : string * string, (turn.1, KMarkdown, turn.2)) h.

(** The assistant message that holds the error of a failed question. *)
Definition error_message (e : string) : string * Kind * string :=
  ("assistant", KError, "Error generating response: " ++ e).

(** The markdown some recorded events write into chat messages
    ([st.markdown] under [st.chat_message]), as (role, text).  Anything else
    a chat message holds, such as the [st.error] of a failed question, is
    not among them; [chat_rendered] keeps those too. *)
Definition chat_shown (evs : list (SessionState * Event)) : list (string * string) :=
  omap (λ x, match x.2 with
             | EShow (ChatMessage role) KMarkdown msg => Some (role, msg)
             | _ => None
             end) evs.

(** The seconds slept during some recorded events. *)
Definition seconds_slept (evs : list (SessionState * Event)) : Z :=
  foldr (λ x acc, match x.2 with ESleep seconds => seconds + acc | _ => acc end) 0 evs.

Definition is_get (c : Call) : bool :=
  match c with FilesGet _ => true | _ => false end.

(** The number of status re-fetches among some recorded events. *)
Definition refetches (evs : list (SessionState * Event)) : nat :=
  length (List.filter is_get (calls_of evs)).

(** What [process_video] returns for the handle the loop ended on. *)
Definition accepted (video_file : File) : option File :=
  if String.eqb (state_name video_file) "FAILED" then None else Some video_file.

(** The run brings no file, or a file under the stored name. *)
Definition brings_nothing_new (inp : Inputs) (st : State) : Prop :=
  match uploaded_file inp with
  | Some uploaded => current_file_name (session_state st) = Some (upload_name uploaded)
  | None => True
  end.

(** The question a run submits: [st.chat_input] gave a non-empty text. *)
Definition submitted_query (inp : Inputs) : option string :=
  match user_query inp with
  | Some q => if truthy q then Some q else None
  | None => None
  end.

(** The turns one run can add for a question. *)
Definition turn_tail (query : option string) (tail : list (string * string)) : Prop :=
  match query with
  | Some q => tail = [("user", q)] ∨ ∃ answer, tail = [("user", q); ("assistant", answer)]
  | None => tail = []
  end.

(** The model requests of a run over the handle [v], in order: the token
    count, the vision check when its button was clicked, the question. *)
Definition model_calls (inp : Inputs) (v : File) : list Call :=
  (CountTokens (model_name inp) [PFile v] ::
   (if check_video_vision inp
    then [GenerateContent (model_name inp) [PFile v; PText debug_prompt]]
    else [])) ++
  match submitted_query inp with
  | Some q => [GenerateContent (model_name inp) [PFile v; PText q]]
  | None => []
  end.

(** Every turn is a user turn or an assistant turn, and an assistant turn
    directly follows a user turn. *)
Definition well_formed_transcript (h : list (string * string)) : Prop :=
  ∀ i role msg, h !! i = Some (role, msg) →
    role = "user" ∨
    (role = "assistant" ∧ ∃ q, (0 < i)%nat ∧ h !! (i - 1)%nat = Some ("user", q)).

(** What holds of the session state between runs. *)
Definition session_ok (ss : SessionState) : Prop :=
  (chat_history ss ≠ [] → is_Some (processed_video ss)) ∧
  (is_Some (processed_video ss) → is_Some (current_file_name ss)) ∧
  (∀ v, processed_video ss = Some v →
        state_name v ≠ "PROCESSING" ∧ state_name v ≠ "FAILED") ∧
  well_formed_transcript (chat_history ss).

(** ** Further example worlds *)

Module MoreExamples.

(** A service that refuses the upload request. *)
Definition refusing_client : Client :=
  {| files_upload := λ _ _ _, Raise "413 Request Entity Too Large";
     files_get := files_get Examples.good_client;
     models_count_tokens := λ _ _ _, Ret 2630;
     models_generate_content := λ _ _ _, Ret "A cat jumps." |}.


Definition temp_path : string := "/tmp/tmpk3v9x2.mp4".

End MoreExamples.

(** * Proofs *)

Local Open Scope list_scope.

(** ** Division and rounding *)

Section Rounding.

Local Open Scope Z_scope.

Lemma round_half_even_near num den :
  0 < den → 2 * Z.abs (round_half_even num den * den - num) ≤ den.
Proof.
  intros Hd. unfold round_half_even.
  pose proof (Z.div_mod num den ltac:(lia)) as Hdm.
  pose proof (Z.mod_pos_bound num den Hd) as Hr.
  set (q := num / den) in *. set (r := num mod den) in *.
  destruct (2 * r <? den) eqn:E1; [apply Z.ltb_lt in E1; nia|].
  apply Z.ltb_ge in E1.
  destruct (den <? 2 * r) eqn:E2; [apply Z.ltb_lt in E2; nia|].
  apply Z.ltb_ge in E2.
  destruct (Z.even q); nia.
Qed.

Lemma round_half_even_bounds num den lo hi :
  0 < den → lo * den ≤ num → num ≤ hi * den →
  lo ≤ round_half_even num den ≤ hi.
Proof.
  intros Hd Hlo Hhi. unfold round_half_even.
  pose proof (Z.div_mod num den ltac:(lia)) as Hdm.
  pose proof (Z.mod_pos_bound num den Hd) as Hr.
  set (q := num / den) in *. set (r := num mod den) in *.
  assert (lo ≤ q) by nia.
  assert (q ≤ hi) by nia.
  destruct (2 * r <? den) eqn:E1; [lia|].
  apply Z.ltb_ge in E1.
  assert (q < hi) by nia.
  destruct (den <? 2 * r); [lia|]. destruct (Z.even q); lia.
Qed.

(** Lowering the exponent by [j] scales numerator over denominator by [2^j]. *)
Lemma pow_shift e j :
  0 ≤ j → 2 ^ Z.max 0 (- (e - j)) * 2 ^ Z.max 0 e = 2 ^ j * 2 ^ Z.max 0 (- e) * 2 ^ Z.max 0 (e - j).
Proof.
  intros Hj. rewrite <- !Z.pow_add_r by lia. f_equal. lia.
Qed.

Lemma log2_scaled a b :
  0 < a → 0 < b →
  let k := Z.log2 a - Z.log2 b in
  let X := a * 2 ^ Z.max 0 (- k) in
  let Y := b * 2 ^ Z.max 0 k in
  0 < X ∧ 0 < Y ∧ X < 2 * Y ∧ Y < 2 * X.
Proof.
  intros Ha Hb k X Y.
  pose proof (Z.log2_spec a Ha) as HA. pose proof (Z.log2_spec b Hb) as HB.
  pose proof (Z.log2_nonneg a). pose proof (Z.log2_nonneg b).
  rewrite Z.pow_succ_r in HA, HB by done.
  assert (2 ^ Z.log2 a * 2 ^ Z.max 0 (- k) = 2 ^ Z.log2 b * 2 ^ Z.max 0 k) as Heq.
  { rewrite <- !Z.pow_add_r by lia. f_equal. lia. }
  assert (0 < 2 ^ Z.max 0 (- k)) by (apply Z.pow_pos_nonneg; lia).
  assert (0 < 2 ^ Z.max 0 k) by (apply Z.pow_pos_nonneg; lia).
  subst X Y.
  set (A := 2 ^ Z.log2 a) in *. set (B := 2 ^ Z.log2 b) in *.
  set (P := 2 ^ Z.max 0 (- k)) in *. set (Q := 2 ^ Z.max 0 k) in *.
  nia.
Qed.

Lemma scaled_bounds a b j e :
  0 < a → 0 < b → 0 ≤ j →
  let k := Z.log2 a - Z.log2 b in
  e = k - j →
  let X := a * 2 ^ Z.max 0 (- k) in
  let Y := b * 2 ^ Z.max 0 k in
  (a * 2 ^ Z.max 0 (- e)) * Y = 2 ^ j * X * (b * 2 ^ Z.max 0 e).
Proof.
  intros Ha Hb Hj k -> X Y. subst X Y.
  pose proof (pow_shift k j Hj) as Hs.
  set (P1 := 2 ^ Z.max 0 (- (k - j))) in *. set (Q := 2 ^ Z.max 0 k) in *.
  set (P := 2 ^ Z.max 0 (- k)) in *. set (Q1 := 2 ^ Z.max 0 (k - j)) in *.
  set (J := 2 ^ j) in *. nia.
Qed.

Lemma ratio_bounds num den X Y J lo hi :
  0 < Y → 0 < den → num * Y = J * X * den →
  lo * Y ≤ J * X → J * X < hi * Y →
  lo * den ≤ num ∧ num < hi * den.
Proof.
  intros HY Hden Heq Hlo Hhi. split.
  - apply (Z.mul_le_mono_pos_r _ _ Y); [done|]. rewrite Heq.
    replace (lo * den * Y) with (lo * Y * den) by ring.
    apply Z.mul_le_mono_nonneg_r; lia.
  - apply (Z.mul_lt_mono_pos_r Y); [done|]. rewrite Heq.
    replace (hi * den * Y) with (hi * Y * den) by ring.
    apply Z.mul_lt_mono_pos_r; lia.
Qed.

Lemma true_div_pos_near a b :
  0 < a → 0 < b → -1021 ≤ Z.log2 a - Z.log2 b →
  nearest_double (true_div_pos a b) a b ∧
  expo (true_div_pos a b) ≤ Z.log2 a - Z.log2 b - 51.
Proof.
  intros Ha Hb Hk. unfold true_div_pos, nearest_double.
  destruct (log2_scaled a b Ha Hb) as (HX & HY & HXY & HYX).
  set (k := Z.log2 a - Z.log2 b) in *.
  set (X := a * 2 ^ Z.max 0 (- k)) in *. set (Y := b * 2 ^ Z.max 0 k) in *.
  set (e0 := if X <? Y then k - 53 else k - 52).
  assert (Z.max e0 (-1074) = e0) as -> by (subst e0; destruct (X <? Y); lia).
  set (num := a * 2 ^ Z.max 0 (- e0)). set (den := b * 2 ^ Z.max 0 e0).
  assert (0 < den) as Hden.
  { subst den. apply Z.mul_pos_pos; [done|]. apply Z.pow_pos_nonneg; lia. }
  assert (2 ^ 53 = 2 * 2 ^ 52) as H53 by reflexivity.
  assert (0 < 2 ^ 52) as H52 by reflexivity.
  rewrite H53. set (c := 2 ^ 52) in *.
  assert (c * den ≤ num ∧ num < 2 * c * den) as [Hlo Hhi].
  { subst e0. destruct (X <? Y) eqn:E.
    - apply Z.ltb_lt in E.
      pose proof (scaled_bounds a b 53 (k - 53) Ha Hb ltac:(lia) eq_refl) as Hs.
      fold k X Y num den in Hs. rewrite H53 in Hs. fold c in Hs.
      apply (ratio_bounds num den X Y (2 * c)); try done; nia.
    - apply Z.ltb_ge in E.
      pose proof (scaled_bounds a b 52 (k - 52) Ha Hb ltac:(lia) eq_refl) as Hs.
      fold k X Y num den in Hs. fold c in Hs.
      apply (ratio_bounds num den X Y c); try done; nia. }
  pose proof (round_half_even_near num den Hden) as Hnear.
  pose proof (round_half_even_bounds num den c (2 * c) Hden Hlo ltac:(lia)) as Hb2.
  set (m := round_half_even num den) in *.
  assert (e0 ≤ k - 52) as He0 by (subst e0; destruct (X <? Y); lia).
  destruct (m =? 2 * c) eqn:Em; simpl.
  - apply Z.eqb_eq in Em. split; [|lia]. right. split; [lia|].
    rewrite Em in Hnear. subst num den.
    destruct (Z_le_gt_dec 0 e0) as [Hpos|Hneg].
    + rewrite (Z.max_r 0 (e0 + 1)) by lia. rewrite (Z.max_l 0 (- (e0 + 1))) by lia.
      rewrite (Z.max_r 0 e0) in Hnear by lia. rewrite (Z.max_l 0 (- e0)) in Hnear by lia.
      rewrite Z.pow_add_r by lia. change (2 ^ 1) with 2. change (2 ^ 0) with 1 in *.
      set (D := 2 ^ e0) in *. nia.
    + rewrite (Z.max_l 0 (e0 + 1)) by lia. rewrite (Z.max_r 0 (- (e0 + 1))) by lia.
      rewrite (Z.max_l 0 e0) in Hnear by lia. rewrite (Z.max_r 0 (- e0)) in Hnear by lia.
      replace (- e0) with (- (e0 + 1) + 1) in Hnear by lia.
      rewrite Z.pow_add_r in Hnear by lia. change (2 ^ 1) with 2 in *. change (2 ^ 0) with 1 in *.
      set (P := 2 ^ (- (e0 + 1))) in *. nia.
  - apply Z.eqb_neq in Em. split; [|lia]. right. split; [lia|]. done.
Qed.

(** The duration estimate: [total_tokens / 263] never overflows for a count
    below [2^1024] and is the correctly rounded quotient. *)
Lemma est_seconds_near (total_tokens : Z) :
  0 ≤ total_tokens < 2 ^ 1024 →
  ∃ f, int_true_div total_tokens 263 = Ret f ∧ nearest_double f total_tokens 263.
Proof.
  intros [H0 Hlt]. unfold int_true_div. simpl (263 =? 0).
  destruct (total_tokens =? 0) eqn:E0.
  - apply Z.eqb_eq in E0. eexists. split; [done|]. by left.
  - apply Z.eqb_neq in E0. assert (0 < total_tokens) as Hpos by lia.
    rewrite (Z.abs_eq total_tokens) by lia. change (Z.abs 263) with 263.
    assert (Z.log2 total_tokens < 1024) as Hlog by (apply Z.log2_lt_pow2; lia).
    pose proof (Z.log2_nonneg total_tokens) as Hnn.
    change (Z.log2 263) with 8 in *.
    destruct (true_div_pos_near total_tokens 263 Hpos) as [Hn He]; [done| |].
    { change (Z.log2 263) with 8. lia. }
    change (Z.log2 263) with 8 in He.
    rewrite (proj2 (Z.ltb_ge _ _)) by lia.
    rewrite (proj2 (Z.sgn_pos_iff _) Hpos). simpl. by eexists.
Qed.

End Rounding.

Ltac unfold_py :=
  unfold call_files_upload, call_files_get, call_count_tokens,
    call_generate_content, sleep, show, set_processed_video, set_chat_history,
    set_current_file_name, append_turn, get_history, get_disk, set_disk,
    get_session, set_session, emit, lift, try_except, try_finally, bind, ret,
    raise in *.

Lemma frames_pure {A} (Q : Event → Prop) (m : M A) :
  (∀ st, ∃ r, m st = Some (r, st)) → frames Q m.
Proof.
  intros Hm st r st' H. destruct (Hm st) as [r' Hr]. simplify_eq.
  split; [done|]. split; [done|]. exists []. by rewrite app_nil_r.
Qed.

Section Frames.

Context {A B : Type} (Q : Event → Prop).

Lemma frames_ret (a : A) : frames Q (ret a).
Proof. apply frames_pure. intros st. by eexists. Qed.

Lemma frames_raise e : frames Q (raise e : M A).
Proof. apply frames_pure. intros st. by eexists. Qed.

Lemma frames_lift (o : Outcome A) : frames Q (lift o).
Proof. apply frames_pure. intros st. by eexists. Qed.

Lemma frames_get_history : frames Q get_history.
Proof. apply frames_pure. intros st. by eexists. Qed.

Lemma frames_get_disk : frames Q get_disk.
Proof. apply frames_pure. intros st. by eexists. Qed.

Lemma frames_get_session : frames Q get_session.
Proof. apply frames_pure. intros st. by eexists. Qed.

Lemma frames_emit ev : Q ev → frames Q (emit ev).
Proof.
  intros HQ st r st' H. unfold emit in H. simplify_eq. simpl.
  split; [done|]. split; [done|].
  exists [(session_state st, ev)]. split; [done|]. by constructor.
Qed.

(** Two framed steps in a row. *)
Lemma frames_seq (st st1 st2 : State) :
  (session_state st1 = session_state st ∧ disk st1 = disk st ∧
   ∃ evs, trace st1 = trace st ++ evs ∧
          Forall (λ x, x.1 = session_state st ∧ Q x.2) evs) →
  (session_state st2 = session_state st1 ∧ disk st2 = disk st1 ∧
   ∃ evs, trace st2 = trace st1 ++ evs ∧
          Forall (λ x, x.1 = session_state st1 ∧ Q x.2) evs) →
  session_state st2 = session_state st ∧ disk st2 = disk st ∧
  ∃ evs, trace st2 = trace st ++ evs ∧
         Forall (λ x, x.1 = session_state st ∧ Q x.2) evs.
Proof.
  intros (Hs1 & Hd1 & evs1 & Ht1 & Hf1) (Hs2 & Hd2 & evs2 & Ht2 & Hf2).
  split; [congruence|]. split; [congruence|]. exists (evs1 ++ evs2).
  split; [by rewrite Ht2, Ht1, app_assoc|].
  apply Forall_app. split; [done|]. by rewrite <- Hs1.
Qed.

Lemma frames_bind (m : M A) (k : A → M B) :
  frames Q m → (∀ a, frames Q (k a)) → frames Q (bind m k).
Proof.
  intros Hm Hk st r st' H. unfold bind in H.
  destruct (m st) as [[[a|e] st1]|] eqn:E; [| |done].
  - eapply frames_seq; [by eapply Hm|by eapply Hk].
  - simplify_eq. by apply Hm in E.
Qed.

Lemma frames_try_except (body : M A) handler :
  frames Q body → (∀ e, frames Q (handler e)) → frames Q (try_except body handler).
Proof.
  intros Hm Hk st r st' H. unfold try_except in H.
  destruct (body st) as [[[a|e] st1]|] eqn:E; [| |done].
  - simplify_eq. by apply Hm in E.
  - eapply frames_seq; [by eapply Hm|by eapply Hk].
Qed.

Lemma frames_weaken (Q' : Event → Prop) (m : M A) :
  (∀ ev, Q' ev → Q ev) → frames Q' m → frames Q m.
Proof.
  intros HQ Hm st r st' H. destruct (Hm _ _ _ H) as (Hs & Hd & evs & Ht & Hf).
  split; [done|]. split; [done|]. exists evs. split; [done|].
  eapply Forall_impl; [exact Hf|]. intros x [? ?]. split; [done|]. by apply HQ.
Qed.

End Frames.

Create HintDb frames.
#[export] Hint Resolve frames_ret frames_raise frames_lift frames_get_history
  frames_get_disk frames_get_session : frames.

Ltac frames_step :=
  first
    [ apply frames_bind; [|intros ?]
    | apply frames_try_except; [|intros ?]
    | apply frames_emit; simpl; tauto
    | solve [auto with frames]
    | match goal with |- frames _ (if ?b then _ else _) => destruct b end
    | match goal with |- frames _ (match ?o with _ => _ end) => destruct o end ].

Section Poll.

Variable client : Client.

Lemma eqb_processing (v : File) :
  String.eqb (state_name v) "PROCESSING" = true ↔ state_name v = "PROCESSING".
Proof. apply String.eqb_eq. Qed.

(** One round of the loop, as a state transformer. *)
Lemma poll_S fuel v st :
  state_name v = "PROCESSING" →
  poll client (S fuel) v st =
  (sleep 2 ;; v' <- call_files_get client (name v) ;; poll client fuel v') st.
Proof.
  intros Hv. simpl. apply eqb_processing in Hv. by rewrite Hv.
Qed.

Lemma poll_done fuel v st :
  state_name v ≠ "PROCESSING" → poll client fuel v st = Some (Ret v, st).
Proof.
  intros Hv. destruct (String.eqb (state_name v) "PROCESSING") eqn:E.
  - apply eqb_processing in E. done.
  - destruct fuel; simpl; by rewrite E.
Qed.

(** The loop ends only at an observation that leaves PROCESSING, and then
    it ends exactly as that observation does. *)
Lemma poll_ends fuel : ∀ v st r,
  poll client fuel v st = Some r →
  ∃ n, (n ≤ fuel)%nat ∧ refetched client n v st = Some r ∧ leaves_processing r.1.
Proof.
  induction fuel as [|fuel IH]; intros v st r H.
  - exists 0%nat. simpl in H.
    destruct (String.eqb (state_name v) "PROCESSING") eqn:E; [done|].
    unfold ret in H. simplify_eq. split; [lia|]. split; [done|].
    simpl. intros Hv. apply eqb_processing in Hv. congruence.
  - destruct (decide (state_name v = "PROCESSING")) as [Hv|Hv].
    + rewrite poll_S in H by done.
      unfold_py. simpl in H.
      destruct (files_get client _ (name v)) as [v'|e] eqn:Hget.
      * apply IH in H as (n & Hn & Hobs & Hl).
        exists (S n). split; [lia|]. split; [|done].
        simpl. unfold_py. simpl. by rewrite Hget.
      * simplify_eq. exists 1%nat. split; [lia|]. split; [|done].
        simpl. unfold_py. simpl. by rewrite Hget.
    + rewrite poll_done in H by done. simplify_eq.
      exists 0%nat. split; [lia|]. done.
Qed.

(** Conversely, any observation that leaves PROCESSING is reached with
    enough fuel: there is no bound the loop gives up at. *)
Lemma poll_reaches n : ∀ v st r,
  refetched client n v st = Some r → leaves_processing r.1 →
  ∃ fuel r', (fuel ≤ n)%nat ∧ poll client fuel v st = Some r'.
Proof.
  induction n as [|n IH]; intros v st r H Hl.
  - simpl in H. unfold ret in H. simplify_eq. simpl in Hl.
    exists 0%nat, (Ret v, st). split; [lia|]. by apply poll_done.
  - destruct (decide (state_name v = "PROCESSING")) as [Hv|Hv].
    + simpl in H. unfold_py. simpl in H.
      destruct (files_get client _ (name v)) as [v'|e] eqn:Hget.
      * apply IH in H as (fuel & r' & Hf & Hp); [|done].
        exists (S fuel), r'. split; [lia|].
        rewrite poll_S by done. unfold_py. simpl. by rewrite Hget.
      * exists 1%nat, r. split; [lia|].
        rewrite poll_S by done. unfold_py. simpl. by rewrite Hget.
    + exists 0%nat, (Ret v, st). split; [lia|]. by apply poll_done.
Qed.

(** More fuel does not change a finished loop. *)
Lemma poll_mono fuel : ∀ v st r extra,
  poll client fuel v st = Some r → poll client (fuel + extra) v st = Some r.
Proof.
  induction fuel as [|fuel IH]; intros v st r extra H.
  - simpl in H. destruct (String.eqb (state_name v) "PROCESSING") eqn:E; [done|].
    unfold ret in H. simplify_eq. apply poll_done.
    intros Hv. apply eqb_processing in Hv. congruence.
  - destruct (decide (state_name v = "PROCESSING")) as [Hv|Hv].
    + rewrite poll_S in H by done.
      replace (S fuel + extra)%nat with (S (fuel + extra)) by lia.
      rewrite poll_S by done. unfold_py. simpl in *.
      destruct (files_get client _ (name v)) as [v'|e]; [|done].
      by apply IH.
    + rewrite poll_done in * by done. done.
Qed.

End Poll.

(** ** Ingestion *)

Section Ingest.

Variable client : Client.
Variable os : Os.

Lemma poll_frames fuel : ∀ v, frames ingestion_event (poll client fuel v).
Proof.
  induction fuel as [|fuel IH]; intros v; simpl;
    destruct (String.eqb (state_name v) "PROCESSING"); auto with frames.
  - intros st r st' H. done.
  - unfold sleep, call_files_get. repeat frames_step.
Qed.

Lemma upload_and_wait_frames fuel path :
  frames ingestion_event (upload_and_wait client fuel path).
Proof.
  unfold upload_and_wait, show, sleep, call_files_upload.
  repeat first [apply poll_frames | frames_step].
Qed.

(** Staging always ends; it touches the disk only. *)
Lemma stage_spec uploaded st :
  ∃ out d,
    stage os uploaded st =
      Some (out, {| session_state := session_state st; disk := d; trace := trace st |}) ∧
    match out with
    | Ret path => d = <[path := upload_bytes uploaded]> (disk st)
    | Raise _ => True
    end.
Proof.
  unfold stage. unfold_py. simpl.
  destruct (named_temporary_file os (disk st)) as [path|e]; simpl.
  - destruct (file_write os path (upload_bytes uploaded)) as [[]|e]; simpl.
    + eexists _, _. split; [done|]. simpl. by rewrite insert_insert_eq.
    + by eexists _, _.
  - exists (Raise e), (disk st). split; [|done]. by destruct st.
Qed.

(** The [finally] block always ends, and the staged path is gone after it. *)
Lemma cleanup_spec path st :
  cleanup path st =
    Some (Ret tt, {| session_state := session_state st;
                     disk := delete path (disk st);
                     trace := trace st |}).
Proof.
  unfold cleanup. unfold_py. simpl. case_bool_decide as Hd; simpl.
  - done.
  - rewrite delete_id; [by destruct st|].
    by apply eq_None_not_Some.
Qed.

(** [process_video] once staging has succeeded. *)
Lemma process_video_staged fuel uploaded st path st1 :
  stage os uploaded st = Some (Ret path, st1) →
  process_video client os fuel uploaded st =
    match upload_and_wait client fuel path st1 with
    | Some (out, st2) =>
        Some (out, {| session_state := session_state st2;
                      disk := delete path (disk st2);
                      trace := trace st2 |})
    | None => None
    end.
Proof.
  intros Hs. unfold process_video, bind, try_finally. rewrite Hs.
  destruct (upload_and_wait client fuel path st1) as [[out st2]|]; [|done].
  by rewrite cleanup_spec.
Qed.

Lemma process_video_unstaged fuel uploaded st e st1 :
  stage os uploaded st = Some (Raise e, st1) →
  process_video client os fuel uploaded st = Some (Raise e, st1).
Proof. intros Hs. unfold process_video, bind. by rewrite Hs. Qed.

(** An ingestion leaves the session state to its caller: whatever it does
    happens under the session state it was started in. *)
Lemma process_video_session fuel uploaded st r st' :
  process_video client os fuel uploaded st = Some (r, st') →
  session_state st' = session_state st ∧
  ∃ evs, trace st' = trace st ++ evs ∧
         Forall (λ x, x.1 = session_state st ∧ ingestion_event x.2) evs.
Proof.
  intros H. destruct (stage_spec uploaded st) as (out & d & Hs & Hd).
  destruct out as [path|e].
  - rewrite (process_video_staged _ _ _ _ _ Hs) in H.
    destruct (upload_and_wait client fuel path _) as [[out st2]|] eqn:E; [|done].
    apply upload_and_wait_frames in E as (Hs2 & _ & evs & Ht & Hf).
    simplify_eq. simpl in *. split; [done|]. by exists evs.
  - rewrite (process_video_unstaged _ _ _ _ _ Hs) in H. simplify_eq. simpl.
    split; [done|]. exists []. by rewrite app_nil_r.
Qed.

(** Once the bytes are staged, the staged file is deleted however the
    ingestion ends. *)
Lemma process_video_removes_staged fuel uploaded st path st1 r st' :
  stage os uploaded st = Some (Ret path, st1) →
  process_video client os fuel uploaded st = Some (r, st') →
  disk st' !! path = None ∧ disk st' = delete path (disk st).
Proof.
  intros Hs H. rewrite (process_video_staged _ _ _ _ _ Hs) in H.
  destruct (upload_and_wait client fuel path st1) as [[out st2]|] eqn:E; [|done].
  apply upload_and_wait_frames in E as (_ & Hd2 & _).
  simplify_eq. simpl. rewrite Hd2. split; [apply lookup_delete_eq|].
  destruct (stage_spec uploaded st) as (out' & d & Hs' & Hd).
  rewrite Hs in Hs'. simplify_eq. simpl. by rewrite delete_insert_eq.
Qed.

Lemma upload_and_wait_unfold fuel path st :
  upload_and_wait client fuel path st =
  (v <- handshake client path ;; v' <- poll client fuel v ;; verdict v') st.
Proof.
  unfold upload_and_wait, handshake, verdict. unfold_py. simpl.
  destruct (disk st !! path) as [data|]; simpl; [|done].
  by destruct (files_upload client _ path data).
Qed.

Lemma submitted_unfold n path st :
  submitted client n path st = (v <- handshake client path ;; refetched client n v) st.
Proof.
  unfold submitted, handshake. unfold_py. simpl.
  destruct (disk st !! path) as [data|]; simpl; [|done].
  by destruct (files_upload client _ path data).
Qed.

Lemma verdict_total v st : ∃ r, verdict v st = Some r.
Proof.
  unfold verdict. destruct (String.eqb (state_name v) "FAILED");
    unfold_py; simpl; by eexists.
Qed.

(** The [try] block ends only at an observation that leaves PROCESSING. *)
Lemma upload_and_wait_ends fuel path st r :
  upload_and_wait client fuel path st = Some r →
  ∃ n out st', (n ≤ fuel)%nat ∧
    submitted client n path st = Some (out, st') ∧ leaves_processing out.
Proof.
  rewrite upload_and_wait_unfold. intros H.
  unfold bind at 1 in H.
  destruct (handshake client path st) as [[[v|e] st1]|] eqn:Hh; [| |done].
  - unfold bind at 1 in H.
    destruct (poll client fuel v st1) as [r'|] eqn:Hp; [|done].
    apply poll_ends in Hp as (n & Hn & Hobs & Hl).
    exists n, r'.1, r'.2. split; [done|]. split; [|done].
    rewrite submitted_unfold. unfold bind. rewrite Hh, Hobs. by destruct r'.
  - exists 0%nat, (Raise e), st1. split; [lia|]. split; [|done].
    rewrite submitted_unfold. unfold bind. by rewrite Hh.
Qed.

Lemma upload_and_wait_reaches n path st out st' :
  submitted client n path st = Some (out, st') → leaves_processing out →
  ∃ fuel r, (fuel ≤ n)%nat ∧ upload_and_wait client fuel path st = Some r.
Proof.
  rewrite submitted_unfold. intros H Hl. unfold bind at 1 in H.
  destruct (handshake client path st) as [[[v|e] st1]|] eqn:Hh; [| |done].
  - apply (poll_reaches client n _ _ (out, st')) in H as (fuel & r' & Hf & Hp);
      [|done].
    exists fuel. rewrite upload_and_wait_unfold. unfold bind. rewrite Hh, Hp.
    destruct r' as [[v'|e] st2].
    + destruct (verdict_total v' st2) as [r Hr]. exists r. split; [done|].
      exact Hr.
    + by eexists.
  - exists 0%nat. rewrite upload_and_wait_unfold. unfold bind. rewrite Hh.
    eexists. split; [lia|done].
Qed.

End Ingest.

(** ** The poll loop and termination of an ingestion *)

Section IngestTermination.

Variable client : Client.
Variable os : Os.

Lemma status_after_staged n uploaded st path st1 :
  stage os uploaded st = Some (Ret path, st1) →
  status_after client os n uploaded st = submitted client n path st1.
Proof. intros Hs. unfold status_after, bind. by rewrite Hs. Qed.

Lemma status_after_unstaged n uploaded st e st1 :
  stage os uploaded st = Some (Raise e, st1) →
  status_after client os n uploaded st = Some (Raise e, st1).
Proof. intros Hs. unfold status_after, bind. by rewrite Hs. Qed.

Lemma process_video_ends fuel uploaded st r :
  process_video client os fuel uploaded st = Some r →
  ∃ n out st', (n ≤ fuel)%nat ∧
    status_after client os n uploaded st = Some (out, st') ∧ leaves_processing out.
Proof.
  intros H. destruct (stage_spec os uploaded st) as ([path|e] & d & Hs & _).
  - rewrite (process_video_staged _ _ _ _ _ _ _ Hs) in H.
    destruct (upload_and_wait client fuel path _) as [r'|] eqn:E; [|done].
    apply upload_and_wait_ends in E as (n & out & st' & Hn & Hobs & Hl).
    exists n, out, st'. by rewrite (status_after_staged _ _ _ _ _ Hs).
  - exists 0%nat, (Raise e). eexists. split; [lia|].
    by rewrite (status_after_unstaged _ _ _ _ _ Hs).
Qed.

Lemma process_video_reaches n uploaded st out st' :
  status_after client os n uploaded st = Some (out, st') → leaves_processing out →
  ∃ fuel r, (fuel ≤ n)%nat ∧ process_video client os fuel uploaded st = Some r.
Proof.
  intros H Hl. destruct (stage_spec os uploaded st) as ([path|e] & d & Hs & _).
  - rewrite (status_after_staged _ _ _ _ _ Hs) in H.
    eapply upload_and_wait_reaches in H as (fuel & r & Hf & Hr); [|done].
    exists fuel. rewrite (process_video_staged _ _ _ _ _ _ _ Hs), Hr.
    destruct r. by eexists.
  - exists 0%nat. rewrite (process_video_unstaged _ _ _ _ _ _ _ Hs).
    eexists. split; [lia|done].
Qed.

End IngestTermination.

Section IngestClaims.

Variable client : Client.
Variable os : Os.

(** C7 (as amended).  The loop sleeps 2 and re-fetches for as long as the
    status is PROCESSING, without a bound: an ingestion ends exactly when
    some observation leaves PROCESSING, that is when the status becomes
    something else or when staging, the upload or a re-fetch raises; while
    the remote keeps answering PROCESSING the ingestion is still running,
    however many rounds it is given; and every sleep it makes is 2 seconds. *)
Theorem ingest_terminates_iff_leaves_or_raises (uploaded : UploadedFile) (st : State) :
  (ingest_terminates client os uploaded st ↔
     ∃ n out st', status_after client os n uploaded st = Some (out, st') ∧
                  leaves_processing out) ∧
  (∀ fuel, still_processing client os fuel uploaded st →
           process_video client os fuel uploaded st = None) ∧
  (∀ fuel r st', process_video client os fuel uploaded st = Some (r, st') →
     ∃ evs, trace st' = trace st ++ evs ∧
            ∀ ss seconds, (ss, ESleep seconds) ∈ evs → seconds = 2).
Proof.
  split; [split|split].
  - intros (fuel & r & H).
    apply process_video_ends in H as (n & out & st' & _ & Hobs & Hl).
    by exists n, out, st'.
  - intros (n & out & st' & Hobs & Hl).
    destruct (process_video_reaches _ _ _ _ _ _ _ Hobs Hl) as (fuel & r & _ & H).
    by exists fuel, r.
  - intros fuel Hstill.
    destruct (process_video client os fuel uploaded st) as [r|] eqn:H; [|done].
    apply process_video_ends in H as (n & out & st' & Hn & Hobs & Hl).
    destruct (Hstill n Hn) as (v & st'' & Hobs' & Hv).
    rewrite Hobs in Hobs'. simplify_eq. simpl in Hl. done.
  - intros fuel r st' H.
    apply process_video_session in H as (_ & evs & Ht & Hf).
    exists evs. split; [done|]. intros ss seconds Hin.
    rewrite Forall_forall in Hf. by destruct (Hf _ Hin) as [_ Hq].
Qed.

End IngestClaims.

(** C7 (as stated) fails: when the status endpoint raises, the ingestion
    ends although no status other than PROCESSING was ever reported. *)
Lemma ingest_terminates_without_status_change :
  ¬ (ingest_terminates Examples.unreachable_client Examples.roomy_os
       Examples.clip_a Examples.fresh ↔
     status_leaves_processing Examples.unreachable_client Examples.roomy_os
       Examples.clip_a Examples.fresh).
Proof.
  intros [H _]. destruct H as (n & v & st' & Hobs & Hv).
  - exists 1%nat. eexists. vm_compute. reflexivity.
  - destruct n as [|n].
    + vm_compute in Hobs. by simplify_eq.
    + vm_compute in Hobs. discriminate.
Qed.

(** ** The upload handler *)

Section Upload.

Variable client : Client.
Variable os : Os.

Lemma on_upload_same (fuel : nat) (uploaded : UploadedFile) (st : State) :
  current_file_name (session_state st) = Some (upload_name uploaded) →
  on_upload client os fuel uploaded st = Some (Ret tt, st).
Proof.
  intros Hn. unfold on_upload, bind, get_session. simpl.
  rewrite bool_decide_eq_false_2; [done|]. by intros [].
Qed.

(** C4.  Uploading a file whose name is the stored identity changes nothing:
    transcript, handle and identity stay, no event happens (so no ingestion),
    whatever bytes the file holds. *)
Theorem same_name_upload_is_noop (fuel : nat) (file_name : string)
    (bytes : list byte) (st : State) :
  current_file_name (session_state st) = Some file_name →
  on_upload client os fuel (mkUploaded file_name bytes) st = Some (Ret tt, st).
Proof. intros Hn. by apply on_upload_same. Qed.

(** What the handler does with a new name, in terms of the ingestion. *)
Lemma on_upload_new (fuel : nat) (uploaded : UploadedFile) (st : State) :
  current_file_name (session_state st) ≠ Some (upload_name uploaded) →
  on_upload client os fuel uploaded st =
    match process_video client os fuel uploaded (begin_ingest uploaded st) with
    | Some (Ret video_object, st1) =>
        Some (Ret tt, {| session_state :=
                           {| chat_history := chat_history (session_state st1);
                              processed_video := video_object;
                              current_file_name := current_file_name (session_state st1) |};
                         disk := disk st1;
                         trace := trace st1 |})
    | Some (Raise e, st1) => Some (Raise e, st1)
    | None => None
    end.
Proof.
  intros Hn. unfold on_upload. unfold bind at 1. unfold get_session.
  rewrite bool_decide_eq_true_2 by done.
  unfold set_processed_video, set_chat_history, set_current_file_name, set_session.
  unfold bind. simpl. unfold begin_ingest, cleared_session.
  by destruct (process_video client os fuel uploaded _) as [[[v|e] st1]|].
Qed.

(** C3.  Uploading a file whose name differs from the stored identity clears
    the handle and the transcript and stores the new name before the
    ingestion starts.  For every bound on the poll loop, the handler does
    exactly what the ingestion does when started in the cleared session
    state (no handle, empty transcript, the new name): while that ingestion
    is still polling, so is the handler; when it returns, the handler returns
    with an empty transcript, the new name and the handle the ingestion
    returned; when it raises, the handler raises the same exception and the
    session state stays cleared.  Every event of the ingestion is recorded
    under the cleared session state. *)
Theorem new_name_upload_resets_before_ingestion (fuel : nat)
    (uploaded : UploadedFile) (st : State) :
  current_file_name (session_state st) ≠ Some (upload_name uploaded) →
  on_upload client os fuel uploaded st =
    match process_video client os fuel uploaded
            {| session_state := cleared_session (upload_name uploaded);
               disk := disk st;
               trace := trace st |} with
    | Some (Ret video_object, st1) =>
        Some (Ret tt,
              {| session_state :=
                   {| chat_history := [];
                      processed_video := video_object;
                      current_file_name := Some (upload_name uploaded) |};
                 disk := disk st1;
                 trace := trace st1 |})
    | Some (Raise e, st1) =>
        Some (Raise e,
              {| session_state := cleared_session (upload_name uploaded);
                 disk := disk st1;
                 trace := trace st1 |})
    | None => None
    end ∧
  ∀ r st1,
    process_video client os fuel uploaded
      {| session_state := cleared_session (upload_name uploaded);
         disk := disk st;
         trace := trace st |} = Some (r, st1) →
    ∃ evs, trace st1 = trace st ++ evs ∧
           Forall (λ x, x.1 = cleared_session (upload_name uploaded) ∧
                        ingestion_event x.2) evs.
Proof.
  intros Hn. split.
  - rewrite on_upload_new by done. unfold begin_ingest.
    destruct (process_video client os fuel uploaded _) as [[r st1]|] eqn:Hpv; [|done].
    destruct (process_video_session _ _ _ _ _ _ _ Hpv) as (Hs & _). simpl in Hs.
    destruct r as [v|e].
    + by rewrite Hs.
    + destruct st1 as [ss1 d1 t1]. simpl in *. by rewrite Hs.
  - intros r st1 Hpv.
    destruct (process_video_session _ _ _ _ _ _ _ Hpv) as (_ & evs & Ht & Hf).
    by exists evs.
Qed.

End Upload.

(** ** The chat turn *)

Section Ask.

Variable client : Client.

(** What [ask] does, step by step: the query is shown, appended, sent with
    the stored handle, and the answer or the error is shown. *)
Lemma ask_run (model query : string) (st : State) :
  let ss := session_state st in
  let ss1 := with_turn ("user", query) ss in
  let shown := trace st ++ [(ss, EShow (ChatMessage "user") KMarkdown query)] in
  let called :=
    shown ++ [(ss1, ECall (GenerateContent model [video_part ss; PText query]))] in
  ask client model query st =
    match models_generate_content client
            (history st ++ [EShow (ChatMessage "user") KMarkdown query])
            model [video_part ss; PText query] with
    | Ret answer =>
        Some (Ret tt,
              {| session_state := with_turn ("assistant", answer) ss1;
                 disk := disk st;
                 trace := called ++
                   [(ss1, EShow (ChatMessage "assistant") KMarkdown answer)] |})
    | Raise e =>
        Some (Ret tt,
              {| session_state := ss1;
                 disk := disk st;
                 trace := called ++
                   [(ss1, EShow (ChatMessage "assistant") KError
                            ("Error generating response: " ++ e)%string)] |})
    end.
Proof.
  unfold ask. unfold_py. unfold history. simpl. rewrite fmap_app. simpl.
  unfold video_part. simpl.
  by destruct (models_generate_content client _ model _).
Qed.

(** Every [ask] ends normally and makes exactly one remote call. *)
Lemma ask_calls (model query : string) (st : State) :
  ∃ st' evs,
    ask client model query st = Some (Ret tt, st') ∧
    trace st' = trace st ++ evs ∧
    calls_of evs =
      [GenerateContent model [video_part (session_state st); PText query]] ∧
    processed_video (session_state st') = processed_video (session_state st) ∧
    current_file_name (session_state st') = current_file_name (session_state st).
Proof.
  pose proof (ask_run model query st) as H. simpl in H.
  destruct (models_generate_content client _ model _) in H;
    (eexists _, _; split; [exact H|]; simpl;
     split; [by rewrite <- !app_assoc|done]).
Qed.


(** C6.  Whatever the transcript holds, the one remote call of [ask] is a
    generation request whose contents are the stored handle and the query,
    and nothing else. *)
Theorem ask_sends_handle_and_query_only (model query : string) (st : State)
    (v : File) :
  processed_video (session_state st) = Some v →
  ∃ st' evs,
    ask client model query st = Some (Ret tt, st') ∧
    trace st' = trace st ++ evs ∧
    calls_of evs = [GenerateContent model [PFile v; PText query]].
Proof.
  intros Hv.
  destruct (ask_calls model query st) as (st' & evs & Ha & Ht & Hc & _).
  exists st', evs. unfold video_part in Hc. by rewrite Hv in Hc.
Qed.

End Ask.

(** ** Formatting to two decimals *)

Section Formatting.

Local Open Scope Z_scope.

Lemma round_half_even_tie num den :
  0 < den →
  2 * Z.abs (round_half_even num den * den - num) = den →
  Z.even (round_half_even num den) = true.
Proof.
  intros Hd. unfold round_half_even.
  pose proof (Z.div_mod num den ltac:(lia)) as Hdm.
  pose proof (Z.mod_pos_bound num den Hd) as Hr.
  set (q := num / den) in *. set (r := num mod den) in *.
  destruct (2 * r <? den) eqn:E1; [apply Z.ltb_lt in E1; intros H; nia|].
  apply Z.ltb_ge in E1.
  destruct (den <? 2 * r) eqn:E2; [apply Z.ltb_lt in E2; intros H; nia|].
  destruct (Z.even q) eqn:Eq; intros _; [done|].
  rewrite Z.even_add, Eq. done.
Qed.

(** What [format_2f] prints for a value that is not negative: the nearest
    number of hundredths, written out. *)
Lemma format_2f_nearest (f : Float) :
  0 ≤ mant f →
  ∃ n, nearest_hundredth n f ∧ format_2f f = hundredths_string n.
Proof.
  intros Hm.
  assert (0 < 2 ^ Z.max 0 (- expo f)) as HP by (apply Z.pow_pos_nonneg; lia).
  exists (round_half_even (mant f * 100 * 2 ^ Z.max 0 (expo f))
                          (2 ^ Z.max 0 (- expo f))).
  split; [split|].
  - by apply round_half_even_near.
  - by apply round_half_even_tie.
  - unfold format_2f, hundredths_string.
    rewrite (proj2 (Z.ltb_ge _ _)) by lia. by rewrite (Z.abs_eq (mant f)) by lia.
Qed.

(** The exponent [true_div_pos] settles on before rounding puts the
    quotient between [2^52] and [2^53]. *)
Lemma true_div_pos_scale a b :
  0 < a → 0 < b → -1021 ≤ Z.log2 a - Z.log2 b →
  ∃ e0,
    2 ^ 52 * (b * 2 ^ Z.max 0 e0) ≤ a * 2 ^ Z.max 0 (- e0) ∧
    a * 2 ^ Z.max 0 (- e0) < 2 ^ 53 * (b * 2 ^ Z.max 0 e0) ∧
    true_div_pos a b =
      let m := round_half_even (a * 2 ^ Z.max 0 (- e0)) (b * 2 ^ Z.max 0 e0) in
      if m =? 2 ^ 53 then {| mant := 2 ^ 52; expo := e0 + 1 |}
      else {| mant := m; expo := e0 |}.
Proof.
  intros Ha Hb Hk. unfold true_div_pos.
  destruct (log2_scaled a b Ha Hb) as (HX & HY & HXY & HYX).
  set (k := Z.log2 a - Z.log2 b) in *.
  set (X := a * 2 ^ Z.max 0 (- k)) in *. set (Y := b * 2 ^ Z.max 0 k) in *.
  set (e0 := if X <? Y then k - 53 else k - 52).
  assert (Z.max e0 (-1074) = e0) as -> by (subst e0; destruct (X <? Y); lia).
  exists e0.
  set (num := a * 2 ^ Z.max 0 (- e0)). set (den := b * 2 ^ Z.max 0 e0).
  assert (0 < den) as Hden.
  { subst den. apply Z.mul_pos_pos; [done|]. apply Z.pow_pos_nonneg; lia. }
  assert (2 ^ 53 = 2 * 2 ^ 52) as H53 by reflexivity.
  assert (0 < 2 ^ 52) as H52 by reflexivity.
  assert (2 ^ 52 * den ≤ num ∧ num < 2 ^ 53 * den) as [Hlo Hhi].
  { rewrite H53. set (c := 2 ^ 52) in *. subst e0. destruct (X <? Y) eqn:E.
    - apply Z.ltb_lt in E.
      pose proof (scaled_bounds a b 53 (k - 53) Ha Hb ltac:(lia) eq_refl) as Hs.
      fold k X Y num den in Hs. rewrite H53 in Hs. fold c in Hs.
      apply (ratio_bounds num den X Y (2 * c)); try done; nia.
    - apply Z.ltb_ge in E.
      pose proof (scaled_bounds a b 52 (k - 52) Ha Hb ltac:(lia) eq_refl) as Hs.
      fold k X Y num den in Hs. fold c in Hs.
      apply (ratio_bounds num den X Y c); try done; nia. }
  done.
Qed.

Lemma true_div_pos_ties a b :
  0 < a → 0 < b → -1021 ≤ Z.log2 a - Z.log2 b →
  ties_to_even (true_div_pos a b) a b.
Proof.
  intros Ha Hb Hk.
  destruct (true_div_pos_scale a b Ha Hb Hk) as (e0 & Hlo & Hhi & ->).
  cbv zeta.
  assert (0 < b * 2 ^ Z.max 0 e0) as Hden.
  { apply Z.mul_pos_pos; [done|]. apply Z.pow_pos_nonneg; lia. }
  destruct (_ =? 2 ^ 53) eqn:Em.
  - intros _. reflexivity.
  - unfold ties_to_even. simpl. intros Htie.
    by apply round_half_even_tie.
Qed.

Lemma est_seconds_ties (total_tokens : Z) :
  0 ≤ total_tokens < 2 ^ 1024 →
  ∀ f, int_true_div total_tokens 263 = Ret f → ties_to_even f total_tokens 263.
Proof.
  intros [H0 Hlt] f. unfold int_true_div. simpl (263 =? 0).
  destruct (total_tokens =? 0) eqn:E0.
  - intros Hf. injection Hf as <-. by intros _.
  - apply Z.eqb_neq in E0. assert (0 < total_tokens) as Hpos by lia.
    rewrite (Z.abs_eq total_tokens) by lia. change (Z.abs 263) with 263.
    pose proof (Z.log2_nonneg total_tokens) as Hnn.
    assert (ties_to_even (true_div_pos total_tokens 263) total_tokens 263) as Ht.
    { apply true_div_pos_ties; [done|done|]. change (Z.log2 263) with 8. lia. }
    destruct (971 <? expo _); [done|].
    rewrite (proj2 (Z.sgn_pos_iff _) Hpos). simpl. intros Hf.
    by injection Hf as <-.
Qed.

Lemma nearest_double_nonneg f a b : nearest_double f a b → 0 ≤ mant f.
Proof.
  intros [[_ ->]|[[H _] _]]; [done|].
  assert (0 < 2 ^ 52) by reflexivity. lia.
Qed.

End Formatting.

(** ** The inspector and the vision check *)

Section Inspect.

Variable client : Client.

(** What the inspector does: one counting call, then two lines in the
    sidebar, or one error line when the call or the division raises. *)
Lemma inspector_run (model : string) (st : State) :
  let ss := session_state st in
  let called := trace st ++ [(ss, ECall (CountTokens model [video_part ss]))] in
  inspector client model st =
    Some (Ret tt,
      {| session_state := ss;
         disk := disk st;
         trace :=
           match models_count_tokens client (history st) model [video_part ss] with
           | Ret total_tokens =>
               called ++
               (ss, EShow Sidebar KWrite
                      ("**Total Tokens:** " ++ format_thousands total_tokens)%string) ::
               match int_true_div total_tokens 263 with
               | Ret est_seconds =>
                   [(ss, EShow Sidebar KWrite
                           ("**Est. Processed Duration:** " ++ format_2f est_seconds
                              ++ " seconds")%string)]
               | Raise e =>
                   [(ss, EShow Sidebar KError ("Could not count tokens: " ++ e)%string)]
               end
           | Raise e =>
               called ++
               [(ss, EShow Sidebar KError ("Could not count tokens: " ++ e)%string)]
           end |}).
Proof.
  unfold inspector. unfold_py. simpl.
  destruct (models_count_tokens client _ model _) as [t|e]; simpl.
  - destruct (int_true_div t 263); simpl; by rewrite <- !app_assoc.
  - done.
Qed.

(** What the vision check does when the button was clicked. *)
Lemma debug_vision_run (model : string) (st : State) :
  let ss := session_state st in
  let called :=
    trace st ++ [(ss, ECall (GenerateContent model [video_part ss; PText debug_prompt]))] in
  debug_vision client model true st =
    match models_generate_content client (history st) model
            [video_part ss; PText debug_prompt] with
    | Ret debug_response =>
        Some (Ret tt,
              {| session_state := ss; disk := disk st;
                 trace := called ++ [(ss, EShow Sidebar KInfo debug_response)] |})
    | Raise e =>
        Some (Raise e, {| session_state := ss; disk := disk st; trace := called |})
    end.
Proof.
  unfold debug_vision. unfold_py. simpl.
  by destruct (models_generate_content client _ model _).
Qed.

(** C8.  For a count the remote returns, the inspector shows
    [total_tokens / 263] to two decimals, where the division is Python's:
    the binary64 value nearest to the exact quotient.  What is shown is that
    value rounded to the nearest hundredth (ties to even), written as its
    integer part, a point and two digits.  For 2630 tokens the value is
    exactly 10 and the line reads 10.00 seconds. *)
Theorem inspector_estimates_duration (model : string) (st : State)
    (total_tokens : Z) :
  models_count_tokens client (history st) model [video_part (session_state st)]
    = Ret total_tokens →
  0 ≤ total_tokens < 2 ^ 1024 →
  ∃ est_seconds st',
    int_true_div total_tokens 263 = Ret est_seconds ∧
    nearest_double est_seconds total_tokens 263 ∧
    inspector client model st = Some (Ret tt, st') ∧
    trace st' = trace st ++
      [(session_state st, ECall (CountTokens model [video_part (session_state st)]));
       (session_state st,
        EShow Sidebar KWrite ("**Total Tokens:** " ++ format_thousands total_tokens)%string);
       (session_state st,
        EShow Sidebar KWrite
          ("**Est. Processed Duration:** " ++ format_2f est_seconds ++ " seconds")%string)] ∧
    (total_tokens = 2630 →
       est_seconds = {| mant := 10 * 2 ^ 49; expo := -49 |} ∧
       format_2f est_seconds = "10.00"%string) ∧
    ties_to_even est_seconds total_tokens 263 ∧
    ∃ hundredths,
      nearest_hundredth hundredths est_seconds ∧
      format_2f est_seconds = hundredths_string hundredths.
Proof.
  intros Hcount Hrange.
  destruct (est_seconds_near total_tokens Hrange) as (f & Hdiv & Hnear).
  pose proof (inspector_run model st) as Hrun. simpl in Hrun.
  rewrite Hcount, Hdiv in Hrun.
  eexists f, _. split; [done|]. split; [done|]. split; [exact Hrun|].
  split; [simpl; by rewrite <- app_assoc|]. split; [|split].
  - intros ->. vm_compute in Hdiv. simplify_eq. by vm_compute.
  - by apply (est_seconds_ties total_tokens Hrange).
  - apply format_2f_nearest. by eapply nearest_double_nonneg.
Qed.

(** C9.  Neither the inspector nor the vision check touches the session
    state: the inspector always ends normally, the vision check ends
    normally when the remote answers and raises what the remote raises, and
    in every case handle, identity and transcript are what they were. *)
Theorem inspect_and_debug_keep_session (model : string) (clicked : bool)
    (st : State) :
  (∃ st', inspector client model st = Some (Ret tt, st') ∧
          session_state st' = session_state st) ∧
  (∃ st', debug_vision client model clicked st =
            Some (if clicked then
                    match models_generate_content client (history st) model
                            [video_part (session_state st); PText debug_prompt] with
                    | Ret _ => Ret tt
                    | Raise e => Raise e
                    end
                  else Ret tt, st') ∧
          session_state st' = session_state st).
Proof.
  split.
  - rewrite inspector_run. by eexists.
  - destruct clicked.
    + rewrite debug_vision_run.
      destruct (models_generate_content client _ model _); by eexists.
    + by eexists.
Qed.

End Inspect.

(** ** The guard in front of the chat interface *)

Section Emits.

Context {A B : Type} (I : SessionState → Prop) (Q : SessionState * Event → Prop).

Lemma emits_ret (a : A) : emits I Q (ret a).
Proof.
  intros st r st' HI H. unfold ret in H. simplify_eq. split; [done|].
  exists []. by rewrite app_nil_r.
Qed.

Lemma emits_lift (o : Outcome A) : emits I Q (lift o).
Proof.
  intros st r st' HI H. unfold lift in H. simplify_eq. split; [done|].
  exists []. by rewrite app_nil_r.
Qed.

Lemma emits_emit ev : (∀ ss, I ss → Q (ss, ev)) → emits I Q (emit ev).
Proof.
  intros HQ st r st' HI H. unfold emit in H. simplify_eq. simpl. split; [done|].
  exists [(session_state st, ev)]. split; [done|]. constructor; [|done].
  by apply HQ.
Qed.

Lemma emits_set_session f : (∀ ss, I ss → I (f ss)) → emits I Q (set_session f).
Proof.
  intros Hf st r st' HI H. unfold set_session in H. simplify_eq. simpl.
  split; [by apply Hf|]. exists []. by rewrite app_nil_r.
Qed.

Lemma emits_bind (m : M A) (k : A → M B) :
  emits I Q m → (∀ a, emits I Q (k a)) → emits I Q (bind m k).
Proof.
  intros Hm Hk st r st' HI H. unfold bind in H.
  destruct (m st) as [[[a|e] st1]|] eqn:E; [| |done].
  - destruct (Hm _ _ _ HI E) as (HI1 & evs1 & Ht1 & Hf1).
    destruct (Hk _ _ _ _ HI1 H) as (HI2 & evs2 & Ht2 & Hf2).
    split; [done|]. exists (evs1 ++ evs2).
    split; [by rewrite Ht2, Ht1, app_assoc|]. by apply Forall_app.
  - simplify_eq. by apply (Hm _ _ _ HI) in E.
Qed.

Lemma emits_try_except (body : M A) handler :
  emits I Q body → (∀ e, emits I Q (handler e)) → emits I Q (try_except body handler).
Proof.
  intros Hm Hk st r st' HI H. unfold try_except in H.
  destruct (body st) as [[[a|e] st1]|] eqn:E; [| |done].
  - simplify_eq. by apply (Hm _ _ _ HI) in E.
  - destruct (Hm _ _ _ HI E) as (HI1 & evs1 & Ht1 & Hf1).
    destruct (Hk _ _ _ _ HI1 H) as (HI2 & evs2 & Ht2 & Hf2).
    split; [done|]. exists (evs1 ++ evs2).
    split; [by rewrite Ht2, Ht1, app_assoc|]. by apply Forall_app.
Qed.

(** A value read from the session state has the session property. *)
Lemma emits_get_session (k : SessionState → M B) :
  (∀ ss, I ss → emits I Q (k ss)) → emits I Q (bind get_session k).
Proof.
  intros Hk st r st' HI H. unfold bind, get_session in H.
  by apply (Hk _ HI _ _ _ HI H).
Qed.

End Emits.

Lemma emits_get_history {B} I Q (k : list Event → M B) :
  (∀ h, emits I Q (k h)) → emits I Q (bind get_history k).
Proof.
  intros Hk st r st' HI H. unfold bind, get_history in H.
  by apply (Hk _ _ _ _ HI H).
Qed.

Ltac emits_step :=
  first
    [ apply emits_get_session; intros ? ?
    | apply emits_get_history; intros ?
    | apply emits_bind; [|intros ?]
    | apply emits_try_except; [|intros ?]
    | apply emits_ret
    | apply emits_lift
    | match goal with |- emits _ _ (if ?b then _ else _) => destruct b end ].

Section Guard.

Variable client : Client.
Variable os : Os.
Variable v : File.

Lemma gated_show ss p k msg : gated (ss, EShow p k msg).
Proof. done. Qed.

Lemma gated_count ss model contents : gated (ss, ECall (CountTokens model contents)).
Proof. done. Qed.

Lemma gated_generate ss ss' model rest :
  (holds_handle v) ss → (holds_handle v) ss' →
  gated (ss, ECall (GenerateContent model (video_part ss' :: rest))).
Proof.
  intros H H'. exists v. split; [done|]. unfold video_part. by rewrite H'.
Qed.

Lemma holds_with_turn turn ss : (holds_handle v) ss → (holds_handle v) (with_turn turn ss).
Proof. done. Qed.

Lemma inspector_emits model : emits (holds_handle v) gated (inspector client model).
Proof.
  unfold inspector, call_count_tokens, show.
  repeat first [emits_step | apply emits_emit; intros; done].
Qed.

Lemma debug_vision_emits model clicked :
  emits (holds_handle v) gated (debug_vision client model clicked).
Proof.
  unfold debug_vision, call_generate_content, show.
  repeat first
    [ emits_step
    | apply emits_emit; intros; first [done | by apply gated_generate] ].
Qed.

Lemma display_history_emits h : emits (holds_handle v) gated (display_history h).
Proof.
  induction h as [|[role message] h IH]; simpl.
  - apply emits_ret.
  - apply emits_bind; [|done]. apply emits_emit. intros. done.
Qed.

Lemma ask_emits model query : emits (holds_handle v) gated (ask client model query).
Proof.
  unfold ask, call_generate_content, show, append_turn.
  repeat first
    [ emits_step
    | apply emits_set_session; intros; by apply holds_with_turn
    | apply emits_emit; intros; first [done | by apply gated_generate] ].
Qed.

Lemma chat_input_emits model query :
  emits (holds_handle v) gated (chat_input client model query).
Proof.
  unfold chat_input. destruct query as [q|]; [|apply emits_ret].
  destruct (truthy q); [apply ask_emits|apply emits_ret].
Qed.

End Guard.

(** ** Whole runs of the script *)

Section Runs.

Variable client : Client.
Variable os : Os.

Lemma ingestion_gated x : ingestion_event x.2 → gated x.
Proof. destruct x as [ss [[]| |]]; simpl; done. Qed.

Lemma shows_gated x : is_show x.2 → gated x.
Proof. destruct x as [ss [[]| |]]; simpl; done. Qed.

Lemma shows_no_calls evs : Forall (λ x, is_show x.2) evs → calls_of evs = [].
Proof.
  induction 1 as [|[ss ev] evs Hx _ IH]; [done|].
  unfold calls_of in *. simpl in *. by destruct ev.
Qed.

(** The handler records ingestion events only. *)
Lemma on_upload_events fuel uploaded st r st' :
  on_upload client os fuel uploaded st = Some (r, st') →
  ∃ evs, trace st' = trace st ++ evs ∧ Forall (λ x, ingestion_event x.2) evs.
Proof.
  intros H.
  destruct (decide (current_file_name (session_state st) = Some (upload_name uploaded)))
    as [Hn|Hn].
  - rewrite on_upload_same in H by done. simplify_eq.
    exists []. by rewrite app_nil_r.
  - rewrite on_upload_new in H by done.
    destruct (process_video client os fuel uploaded _) as [[r1 st1]|] eqn:Hpv; [|done].
    destruct (process_video_session _ _ _ _ _ _ _ Hpv) as (_ & evs & Ht & Hf).
    exists evs. split.
    + destruct r1; by simplify_eq.
    + eapply Forall_impl; [exact Hf|]. by intros x [_ ?].
Qed.

(** Below the uploader, with a handle stored: every generation request is
    made under that handle. *)
Lemma chat_interface_gated inp st out st' :
  chat_interface client inp st = Some (out, st') →
  ∃ evs, trace st' = trace st ++ evs ∧ Forall gated evs.
Proof.
  unfold chat_interface. unfold bind at 1. unfold get_session.
  destruct (processed_video (session_state st)) as [v|] eqn:Hv.
  - rewrite bool_decide_eq_true_2 by done. intros H.
    assert (emits (holds_handle v) gated
              (inspector client (model_name inp) ;;
               debug_vision client (model_name inp) (check_video_vision inp) ;;
               ss <- get_session ;;
               display_history (chat_history ss) ;;
               chat_input client (model_name inp) (user_query inp))) as He.
    { apply emits_bind; [apply inspector_emits|intros _].
      apply emits_bind; [apply debug_vision_emits|intros _].
      apply emits_get_session. intros ss _.
      apply emits_bind; [apply display_history_emits|intros _].
      apply chat_input_emits. }
    by destruct (He _ _ _ Hv H) as (_ & evs & Ht & Hf); exists evs.
  - rewrite bool_decide_eq_false_2 by (by intros [? ?]).
    intros H. destruct (bool_decide _); unfold show, emit in H; simplify_eq;
      simpl; eexists [_]; (split; [done|]); by constructor.
Qed.

(** Below the uploader, with no handle stored: one message, nothing else. *)
Lemma chat_interface_closed inp st :
  processed_video (session_state st) = None →
  ∃ k msg,
    chat_interface client inp st =
      Some (Ret tt, {| session_state := session_state st;
                       disk := disk st;
                       trace := trace st ++ [(session_state st, EShow Page k msg)] |}).
Proof.
  intros Hv. unfold chat_interface. unfold bind at 1. unfold get_session.
  rewrite bool_decide_eq_false_2 by (rewrite Hv; by intros [? ?]).
  destruct (bool_decide _); unfold show, emit; by eexists _, _.
Qed.

Lemma script_gated fuel inp st out st' :
  script client os fuel inp st = Some (out, st') →
  ∃ evs, trace st' = trace st ++ evs ∧ Forall gated evs.
Proof.
  unfold script. destruct (truthy (api_key inp)).
  - unfold bind at 1.
    destruct (uploaded_file inp) as [uploaded|].
    + destruct (on_upload client os fuel uploaded st) as [[[[]|e] st1]|] eqn:Hu;
        [| |done].
      * intros H. apply on_upload_events in Hu as (evs1 & Ht1 & Hf1).
        apply chat_interface_gated in H as (evs2 & Ht2 & Hf2).
        exists (evs1 ++ evs2). split; [by rewrite Ht2, Ht1, app_assoc|].
        apply Forall_app. split; [|done].
        eapply Forall_impl; [exact Hf1|]. apply ingestion_gated.
      * intros H. simplify_eq. apply on_upload_events in Hu as (evs1 & Ht1 & Hf1).
        exists evs1. split; [done|].
        eapply Forall_impl; [exact Hf1|]. apply ingestion_gated.
    + unfold ret. apply chat_interface_gated.
  - unfold show, emit. intros H. simplify_eq. simpl.
    eexists [_]. split; [done|]. by constructor.
Qed.

(** A run that brings no new upload to a session without a handle shows
    messages and changes nothing. *)
Lemma rerun_idle fuel inp st file_name :
  processed_video (session_state st) = None →
  current_file_name (session_state st) = Some file_name →
  no_new_upload file_name inp →
  ∃ st' evs,
    rerun client os fuel inp st = Some st' ∧
    session_state st' = session_state st ∧ disk st' = disk st ∧
    trace st' = trace st ++ evs ∧ Forall (λ x, is_show x.2) evs.
Proof.
  intros Hv Hn Hinp. unfold rerun, script. destruct (truthy (api_key inp)).
  - unfold bind at 1.
    assert (match uploaded_file inp with
            | Some uploaded => on_upload client os fuel uploaded
            | None => ret tt
            end st = Some (Ret tt, st)) as ->.
    { unfold no_new_upload in Hinp. destruct (uploaded_file inp) as [uploaded|].
      - apply on_upload_same. by rewrite Hn, Hinp.
      - done. }
    destruct (chat_interface_closed inp st Hv) as (k & msg & ->).
    eexists _, [_]. split; [done|]. simpl. repeat split; try done.
    by constructor.
  - unfold show, emit. eexists _, [_]. split; [done|]. simpl.
    repeat split; try done. by constructor.
Qed.

Lemma reruns_idle fuel later : ∀ st file_name,
  processed_video (session_state st) = None →
  current_file_name (session_state st) = Some file_name →
  Forall (no_new_upload file_name) later →
  ∃ st' evs,
    reruns client os fuel later st = Some st' ∧
    session_state st' = session_state st ∧ disk st' = disk st ∧
    trace st' = trace st ++ evs ∧ Forall (λ x, is_show x.2) evs.
Proof.
  induction later as [|inp later IH]; intros st file_name Hv Hn Hl.
  - exists st, []. simpl. rewrite app_nil_r. repeat split; done.
  - apply Forall_cons in Hl as [Hinp Hl].
    destruct (rerun_idle fuel inp st file_name Hv Hn Hinp)
      as (st1 & evs1 & Hr & Hs1 & Hd1 & Ht1 & Hf1).
    destruct (IH st1 file_name) as (st2 & evs2 & Hr2 & Hs2 & Hd2 & Ht2 & Hf2);
      [by rewrite Hs1|by rewrite Hs1|done|].
    exists st2, (evs1 ++ evs2). simpl. rewrite Hr.
    split; [done|]. split; [congruence|]. split; [congruence|].
    split; [by rewrite Ht2, Ht1, app_assoc|]. by apply Forall_app.
Qed.

(** The run in which the ingestion of a new upload fails or raises. *)
Lemma rerun_failed_ingestion fuel inp uploaded st r st1 :
  uploaded_file inp = Some uploaded →
  truthy (api_key inp) = true →
  current_file_name (session_state st) ≠ Some (upload_name uploaded) →
  process_video client os fuel uploaded (begin_ingest uploaded st) = Some (r, st1) →
  r = Ret None ∨ (∃ e, r = Raise e) →
  ∃ st2, rerun client os fuel inp st = Some st2 ∧
         session_state st2 = cleared_session (upload_name uploaded).
Proof.
  intros Hu Hk Hn Hpv Hr. unfold rerun, script. rewrite Hk, Hu.
  unfold bind at 1. rewrite on_upload_new by done. rewrite Hpv.
  destruct (process_video_session _ _ _ _ _ _ _ Hpv) as (Hs & _). simpl in Hs.
  destruct Hr as [->|[e ->]].
  - match goal with |- context [chat_interface client inp ?s] =>
      destruct (chat_interface_closed inp s) as (k & msg & ->); [done|] end.
    eexists. split; [done|]. simpl. by rewrite Hs.
  - by eexists.
Qed.

End Runs.

(** ** Claims about whole sessions *)

Section SessionClaims.

Variable client : Client.
Variable os : Os.

(** [process_video] returns [None] only when the loop ended on the status
    FAILED. *)
Lemma process_video_none fuel uploaded st st' :
  process_video client os fuel uploaded st = Some (Ret None, st') →
  ∃ n v st'', (n ≤ fuel)%nat ∧
    status_after client os n uploaded st = Some (Ret v, st'') ∧
    state_name v = "FAILED".
Proof.
  intros H. destruct (stage_spec os uploaded st) as ([path|e] & d & Hs & _).
  - rewrite (process_video_staged _ _ _ _ _ _ _ Hs) in H.
    rewrite upload_and_wait_unfold in H. unfold bind at 1 in H.
    destruct (handshake client path _) as [[[v0|e] st1]|] eqn:Hh;
      [| destruct st1; simplify_eq |done].
    unfold bind at 1 in H.
    destruct (poll client fuel v0 st1) as [[[v|e] st2]|] eqn:Hp;
      [| destruct st2; simplify_eq |done].
    apply poll_ends in Hp as (n & Hn & Hobs & _).
    exists n, v, st2. split; [done|]. split.
    + rewrite (status_after_staged _ _ _ _ _ _ _ Hs), submitted_unfold.
      unfold bind. by rewrite Hh.
    + unfold verdict in H. destruct (String.eqb (state_name v) "FAILED") eqn:E.
      * by apply String.eqb_eq.
      * unfold_py. simpl in H. simplify_eq.
  - rewrite (process_video_unstaged _ _ _ _ _ _ _ Hs) in H. simplify_eq.
Qed.

(** [process_video] returns a handle only when the loop ended on a status
    that is neither PROCESSING nor FAILED. *)
Lemma process_video_some fuel uploaded st v st' :
  process_video client os fuel uploaded st = Some (Ret (Some v), st') →
  state_name v ≠ "PROCESSING" ∧ state_name v ≠ "FAILED".
Proof.
  intros H. destruct (stage_spec os uploaded st) as ([path|e] & d & Hs & _).
  - rewrite (process_video_staged _ _ _ _ _ _ _ Hs) in H.
    rewrite upload_and_wait_unfold in H. unfold bind at 1 in H.
    destruct (handshake client path _) as [[[v0|e] st1]|] eqn:Hh;
      [| destruct st1; simplify_eq |done].
    unfold bind at 1 in H.
    destruct (poll client fuel v0 st1) as [[[v1|e] st2]|] eqn:Hp;
      [| destruct st2; simplify_eq |done].
    apply poll_ends in Hp as (n & _ & _ & Hl). simpl in Hl.
    unfold verdict in H. destruct (String.eqb (state_name v1) "FAILED") eqn:E.
    + unfold_py. simpl in H. simplify_eq.
    + unfold_py. simpl in H. simplify_eq. split; [done|].
      intros Hf. apply String.eqb_eq in Hf. congruence.
  - rewrite (process_video_unstaged _ _ _ _ _ _ _ Hs) in H. simplify_eq.
Qed.

(** C1.  A generation request is made only behind the guard of line 93
    ([if st.session_state.processed_video]): in every run,
    every such request is recorded under a session state that holds a
    handle, and carries that handle.  A handle that an upload stores was
    reported with a status other than PROCESSING and FAILED.  And when the
    ingestion of a new upload ends with [None] (the remote reported FAILED),
    the run ends with no handle stored, and no later run that brings no new
    upload makes any remote call: there is nothing to ask until another file
    is uploaded. *)
Theorem ask_only_with_stored_handle (fuel : nat) (inp : Inputs) (st : State) :
  (∀ out st', script client os fuel inp st = Some (out, st') →
     ∃ evs, trace st' = trace st ++ evs ∧
       ∀ ss model contents,
         (ss, ECall (GenerateContent model contents)) ∈ evs →
         ∃ v, processed_video ss = Some v ∧ head contents = Some (PFile v)) ∧
  (∀ uploaded out st' v,
     current_file_name (session_state st) ≠ Some (upload_name uploaded) →
     on_upload client os fuel uploaded st = Some (out, st') →
     processed_video (session_state st') = Some v →
     state_name v ≠ "PROCESSING" ∧ state_name v ≠ "FAILED") ∧
  (∀ uploaded st1,
     uploaded_file inp = Some uploaded →
     truthy (api_key inp) = true →
     current_file_name (session_state st) ≠ Some (upload_name uploaded) →
     process_video client os fuel uploaded (begin_ingest uploaded st)
       = Some (Ret None, st1) →
     ∃ st2, rerun client os fuel inp st = Some st2 ∧
       processed_video (session_state st2) = None ∧
       ∀ fuel' later, Forall (no_new_upload (upload_name uploaded)) later →
         ∃ st3 evs, reruns client os fuel' later st2 = Some st3 ∧
           trace st3 = trace st2 ++ evs ∧ calls_of evs = [] ∧
           processed_video (session_state st3) = None).
Proof.
  split; [|split].
  - intros out st' H. apply script_gated in H as (evs & Ht & Hf).
    exists evs. split; [done|]. intros ss model contents Hin.
    rewrite Forall_forall in Hf. exact (Hf _ Hin).
  - intros uploaded out st' v Hn H Hv. rewrite on_upload_new in H by done.
    destruct (process_video client os fuel uploaded _) as [[[vo|e] st1]|] eqn:Hpv;
      [| |done].
    + simplify_eq. simpl in Hv. subst vo. by eapply process_video_some.
    + simplify_eq.
      destruct (process_video_session _ _ _ _ _ _ _ Hpv) as (Hs & _).
      rewrite Hs in Hv. done.
  - intros uploaded st1 Hu Hk Hn Hpv.
    destruct (rerun_failed_ingestion client os fuel inp uploaded st _ st1 Hu Hk Hn Hpv)
      as (st2 & Hr & Hs); [by left|].
    exists st2. split; [done|]. split; [by rewrite Hs|].
    intros fuel' later Hl.
    destruct (reruns_idle client os fuel' later st2 (upload_name uploaded))
      as (st3 & evs & Hr3 & Hs3 & _ & Ht3 & Hf3); [by rewrite Hs|by rewrite Hs|done|].
    exists st3, evs. split; [done|]. split; [done|].
    split; [by apply shows_no_calls|]. by rewrite Hs3, Hs.
Qed.

(** C10.  When the ingestion of a new upload fails or raises, the new name
    was stored before the ingestion did anything; the run leaves the session
    with that name, no handle and an empty transcript; and no later run
    whose upload is absent or carries that name changes the session state or
    the disk or calls the remote (so nothing is ingested again), whatever
    the bytes. *)
Theorem failed_ingestion_blocks_same_name (fuel : nat) (inp : Inputs)
    (uploaded : UploadedFile) (st : State) (r : Outcome (option File))
    (st1 : State) :
  uploaded_file inp = Some uploaded →
  truthy (api_key inp) = true →
  current_file_name (session_state st) ≠ Some (upload_name uploaded) →
  process_video client os fuel uploaded (begin_ingest uploaded st) = Some (r, st1) →
  r = Ret None ∨ (∃ e, r = Raise e) →
  (∃ evs, trace st1 = trace st ++ evs ∧
          Forall (λ x, current_file_name x.1 = Some (upload_name uploaded)) evs) ∧
  ∃ st2, rerun client os fuel inp st = Some st2 ∧
    session_state st2 = cleared_session (upload_name uploaded) ∧
    ∀ fuel' later, Forall (no_new_upload (upload_name uploaded)) later →
      ∃ st3 evs, reruns client os fuel' later st2 = Some st3 ∧
        session_state st3 = session_state st2 ∧ disk st3 = disk st2 ∧
        trace st3 = trace st2 ++ evs ∧ calls_of evs = [].
Proof.
  intros Hu Hk Hn Hpv Hr. split.
  - destruct (process_video_session _ _ _ _ _ _ _ Hpv) as (_ & evs & Ht & Hf).
    exists evs. split; [done|].
    eapply Forall_impl; [exact Hf|]. intros x [-> _]. done.
  - destruct (rerun_failed_ingestion client os fuel inp uploaded st r st1 Hu Hk Hn Hpv Hr)
      as (st2 & Hrun & Hs).
    exists st2. split; [done|]. split; [done|].
    intros fuel' later Hl.
    destruct (reruns_idle client os fuel' later st2 (upload_name uploaded))
      as (st3 & evs & Hr3 & Hs3 & Hd3 & Ht3 & Hf3); [by rewrite Hs|by rewrite Hs|done|].
    exists st3, evs. repeat split; try done. by apply shows_no_calls.
Qed.

End SessionClaims.

(** ** The claims on concrete sessions *)

(** C5 fails on a full disk: [tmp_file.write] raises inside the [with]
    block, before the [try] is entered, and the file [NamedTemporaryFile]
    created stays on the disk. *)
Lemma staging_failure_leaves_temp_file :
  ∃ st',
    process_video Examples.good_client Examples.full_os 0 Examples.clip_a
      Examples.fresh
      = Some (Raise "[Errno 28] No space left on device", st') ∧
    disk st' !! "/tmp/tmpk3v9x2.mp4" = Some [].
Proof. eexists. split; [vm_compute; reflexivity|]. by vm_compute. Qed.

Module Witnesses.

Import Examples.

(** C1 on a ready session that is asked a question, and on a session whose
    upload the remote rejects. *)
Lemma ask_only_with_stored_handle_witness :
  (∃ out st' evs,
     script good_client roomy_os 3 (question_on clip_a "And at 0:10?") ready
       = Some (out, st') ∧
     trace st' = trace ready ++ evs ∧
     ∀ ss model contents,
       (ss, ECall (GenerateContent model contents)) ∈ evs →
       ∃ v, processed_video ss = Some v ∧ head contents = Some (PFile v)) ∧
  (∃ st2, rerun rejecting_client roomy_os 3 (upload_of clip_a) fresh = Some st2 ∧
     processed_video (session_state st2) = None ∧
     ∀ fuel' later, Forall (no_new_upload "a.mp4") later →
       ∃ st3 evs, reruns rejecting_client roomy_os fuel' later st2 = Some st3 ∧
         trace st3 = trace st2 ++ evs ∧ calls_of evs = [] ∧
         processed_video (session_state st3) = None).
Proof.
  split.
  - assert (∃ r, script good_client roomy_os 3 (question_on clip_a "And at 0:10?")
                   ready = Some r) as [[out st'] Hrun]
      by (eexists; vm_compute; reflexivity).
    destruct (proj1 (ask_only_with_stored_handle good_client roomy_os 3
                       (question_on clip_a "And at 0:10?") ready) out st' Hrun)
      as (evs & Ht & Hg).
    by exists out, st', evs.
  - eapply (proj2 (proj2 (ask_only_with_stored_handle rejecting_client roomy_os 3
                            (upload_of clip_a) fresh)) clip_a).
    + reflexivity.
    + reflexivity.
    + discriminate.
    + vm_compute. reflexivity.
Defined.


(** C3: a second clip uploaded to a ready session, to a service that
    processes it and to one that never finishes. *)
Lemma new_name_upload_resets_before_ingestion_witness :
  (∃ st',
     on_upload good_client roomy_os 5 clip_b ready = Some (Ret tt, st') ∧
     session_state st' =
       {| chat_history := [];
          processed_video := Some handle_a;
          current_file_name := Some "b.mp4" |}) ∧
  on_upload stuck_client roomy_os 5 clip_b ready = None.
Proof.
  assert (current_file_name (session_state ready) ≠ Some (upload_name clip_b))
    as Hnew by discriminate.
  split.
  - destruct (new_name_upload_resets_before_ingestion good_client roomy_os 5
                clip_b ready Hnew) as [Heq _].
    assert (∃ st1, process_video good_client roomy_os 5 clip_b
                     {| session_state := cleared_session (upload_name clip_b);
                        disk := disk ready;
                        trace := trace ready |}
                   = Some (Ret (Some handle_a), st1))
      as [st1 Hpv] by (eexists; vm_compute; reflexivity).
    rewrite Hpv in Heq. eexists. split; [exact Heq|reflexivity].
  - destruct (new_name_upload_resets_before_ingestion stuck_client roomy_os 5
                clip_b ready Hnew) as [Heq _].
    assert (process_video stuck_client roomy_os 5 clip_b
              {| session_state := cleared_session (upload_name clip_b);
                 disk := disk ready;
                 trace := trace ready |} = None)
      as Hpv by (vm_compute; reflexivity).
    rewrite Hpv in Heq. exact Heq.
Defined.

(** C4: the same name with other bytes, on a ready session. *)
Lemma same_name_upload_is_noop_witness :
  current_file_name (session_state ready) = Some "a.mp4" ∧
  on_upload good_client roomy_os 5 (mkUploaded "a.mp4" [xff]) ready
    = Some (Ret tt, ready).
Proof.
  split; [reflexivity|]. apply same_name_upload_is_noop. reflexivity.
Defined.

(** C6 on a ready session that already holds two turns. *)
Lemma ask_sends_handle_and_query_only_witness :
  ∃ st' evs,
    ask good_client "gemini-1.5-flash" "And at 0:10?" ready = Some (Ret tt, st') ∧
    trace st' = trace ready ++ evs ∧
    calls_of evs =
      [GenerateContent "gemini-1.5-flash" [PFile handle_a; PText "And at 0:10?"]].
Proof.
  apply (ask_sends_handle_and_query_only good_client "gemini-1.5-flash"
           "And at 0:10?" ready handle_a).
  reflexivity.
Defined.

(** C7 on a service that never finishes: after three rounds the ingestion
    is still polling. *)
Lemma ingest_terminates_iff_leaves_or_raises_witness :
  process_video stuck_client roomy_os 3 clip_a fresh = None.
Proof.
  apply (proj1 (proj2 (ingest_terminates_iff_leaves_or_raises stuck_client roomy_os
                         clip_a fresh))).
  intros n Hn.
  destruct n as [|[|[|[|n]]]]; [| | | |lia];
    (eexists _, _; split; [vm_compute; reflexivity|reflexivity]).
Defined.

(** C8 on a count of 2630 tokens. *)
Lemma inspector_estimates_duration_witness :
  ∃ est_seconds st',
    inspector good_client "gemini-1.5-flash" ready = Some (Ret tt, st') ∧
    est_seconds = {| mant := 10 * 2 ^ 49; expo := -49 |} ∧
    format_2f est_seconds = "10.00"%string ∧
    ∃ hundredths,
      nearest_hundredth hundredths est_seconds ∧
      format_2f est_seconds = hundredths_string hundredths.
Proof.
  destruct (inspector_estimates_duration good_client "gemini-1.5-flash" ready 2630
              eq_refl)
    as (f & st' & _ & _ & Hrun & _ & H2630 & _ & Hshown);
    [split; [lia|reflexivity]|].
  exists f, st'. split; [exact Hrun|].
  split; [exact (proj1 (H2630 eq_refl))|].
  split; [exact (proj2 (H2630 eq_refl))|exact Hshown].
Defined.

(** C10 on a session whose upload cannot be polled. *)
Lemma failed_ingestion_blocks_same_name_witness :
  ∃ st2, rerun unreachable_client roomy_os 3 (upload_of clip_a) fresh = Some st2 ∧
    session_state st2 = cleared_session "a.mp4" ∧
    ∀ fuel' later, Forall (no_new_upload "a.mp4") later →
      ∃ st3 evs, reruns unreachable_client roomy_os fuel' later st2 = Some st3 ∧
        session_state st3 = session_state st2 ∧ disk st3 = disk st2 ∧
        trace st3 = trace st2 ++ evs ∧ calls_of evs = [].
Proof.
  assert (current_file_name (session_state fresh) ≠ Some (upload_name clip_a))
    as Hnew by discriminate.
  assert (∃ st1, process_video unreachable_client roomy_os 3 clip_a
                   (begin_ingest clip_a fresh) = Some (Raise "ConnectError", st1))
    as [st1 Hraise] by (eexists; vm_compute; reflexivity).
  exact (proj2 (failed_ingestion_blocks_same_name unreachable_client roomy_os 3
                  (upload_of clip_a) clip_a fresh _ st1 eq_refl eq_refl Hnew Hraise
                  (or_intror (ex_intro _ "ConnectError" eq_refl)))).
Defined.

End Witnesses.

(** * Further properties of the code *)

(** ** Counting over recorded events *)

Lemma calls_of_app evs1 evs2 : calls_of (evs1 ++ evs2) = calls_of evs1 ++ calls_of evs2.
Proof. unfold calls_of. apply omap_app. Qed.

Lemma chat_shown_app evs1 evs2 :
  chat_shown (evs1 ++ evs2) = chat_shown evs1 ++ chat_shown evs2.
Proof. unfold chat_shown. apply omap_app. Qed.

Lemma seconds_slept_app evs1 evs2 :
  seconds_slept (evs1 ++ evs2) = (seconds_slept evs1 + seconds_slept evs2)%Z.
Proof.
  unfold seconds_slept. induction evs1 as [|[ss ev] evs1 IH]; simpl; [done|].
  destruct ev; simpl in *; lia.
Qed.

Lemma refetches_app evs1 evs2 :
  refetches (evs1 ++ evs2) = (refetches evs1 + refetches evs2)%nat.
Proof.
  unfold refetches. by rewrite calls_of_app, List.filter_app, length_app.
Qed.

(** ** More about [process_video] *)

Section IngestMore.

Variable client : Client.
Variable os : Os.

Lemma handshake_ret path st v0 st2 :
  handshake client path st = Some (Ret v0, st2) →
  session_state st2 = session_state st ∧ disk st2 = disk st ∧
  trace st2 = trace st ++
    [(session_state st, EShow Placeholder KInfo "Uploading video to Google GenAI...");
     (session_state st, ECall (FilesUpload path));
     (session_state st,
      EShow Placeholder KInfo "Processing video context (this may take a moment)...")].
Proof.
  unfold handshake, call_files_upload. unfold_py. simpl.
  destruct (disk st !! path) as [data|]; simpl; [|done].
  destruct (files_upload client _ path data); simpl; [|done].
  intros H. simplify_eq. simpl. by rewrite <- !app_assoc.
Qed.

(** What a failed handshake records: at most the upload call. *)
Lemma handshake_raise path st e st2 :
  handshake client path st = Some (Raise e, st2) →
  ∃ evs, trace st2 = trace st ++ evs ∧
    (calls_of evs = [] ∨ calls_of evs = [FilesUpload path]).
Proof.
  unfold handshake, call_files_upload. unfold_py. simpl.
  destruct (disk st !! path) as [data|]; simpl.
  - destruct (files_upload client _ path data); simpl; [done|].
    intros H. simplify_eq. simpl. eexists [_; _].
    split; [by rewrite <- !app_assoc|]. by right.
  - intros H. simplify_eq. simpl. eexists [_]. split; [done|]. by left.
Qed.

Lemma verdict_run v st :
  verdict v st =
    Some (Ret (accepted v),
          {| session_state := session_state st;
             disk := disk st;
             trace := trace st ++
               if String.eqb (state_name v) "FAILED"
               then [(session_state st,
                      EShow Placeholder KError "Video processing failed.")]
               else [(session_state st,
                      EShow Placeholder KSuccess "Video processed and ready for analysis!");
                     (session_state st, ESleep 2);
                     (session_state st, EShow Placeholder KEmpty "")] |}).
Proof.
  unfold verdict, accepted. destruct (String.eqb (state_name v) "FAILED");
    unfold_py; simpl; [done|]. by rewrite <- !app_assoc.
Qed.

(** The re-fetches of a loop that went [n] rounds without an exception. *)
Lemma refetched_ret n : ∀ v st v' st',
  refetched client n v st = Some (Ret v', st') →
  session_state st' = session_state st ∧ disk st' = disk st ∧
  ∃ evs, trace st' = trace st ++ evs ∧
    refetches evs = n ∧ seconds_slept evs = (2 * Z.of_nat n)%Z ∧
    length (calls_of evs) = n.
Proof.
  induction n as [|n IH]; intros v st v' st' H.
  - simpl in H. unfold ret in H. simplify_eq. repeat split; try done.
    exists []. by rewrite app_nil_r.
  - simpl in H. unfold_py. simpl in H.
    destruct (files_get client _ (name v)) as [v1|e]; [|done].
    apply IH in H as (Hs & Hd & evs & Ht & Hr & Hz & Hc). simpl in *.
    split; [done|]. split; [done|].
    exists ([(session_state st, ESleep 2); (session_state st, ECall (FilesGet (name v)))]
            ++ evs).
    split; [by rewrite Ht, <- !app_assoc|].
    rewrite refetches_app, seconds_slept_app, calls_of_app, length_app, Hr, Hz, Hc.
    split; [done|]. split; [|done]. unfold seconds_slept. simpl. lia.
Qed.

(** The loop stops at the first observation that leaves PROCESSING, however
    much fuel is left. *)
Lemma poll_first n : ∀ v st r fuel,
  (∀ k, (k < n)%nat → ∃ vk stk,
     refetched client k v st = Some (Ret vk, stk) ∧ state_name vk = "PROCESSING") →
  refetched client n v st = Some r → leaves_processing r.1 →
  (n ≤ fuel)%nat →
  poll client fuel v st = Some r.
Proof.
  induction n as [|n IH]; intros v st r fuel Hbefore Hn Hl Hfuel.
  - simpl in Hn. unfold ret in Hn. simplify_eq. simpl in Hl. by apply poll_done.
  - destruct (Hbefore 0%nat) as (v0 & st0 & H0 & Hv0); [lia|].
    simpl in H0. unfold ret in H0. simplify_eq.
    destruct fuel as [|fuel]; [lia|]. rewrite poll_S by done.
    simpl in Hn. unfold_py. simpl in *.
    destruct (files_get client _ (name v0)) as [v1|e] eqn:Hget; [|done].
    apply (IH v1 _ r fuel); [|done|done|lia].
    intros k Hk. destruct (Hbefore (S k)) as (vk & stk & Hk' & Hvk); [lia|].
    simpl in Hk'. unfold_py. simpl in Hk'. rewrite Hget in Hk'. by exists vk, stk.
Qed.

(** Whatever way the re-fetching ends, its only calls are re-fetches. *)
Lemma refetched_calls n : ∀ v st r st',
  refetched client n v st = Some (r, st') →
  ∃ evs, trace st' = trace st ++ evs ∧
    Forall (λ c, is_get c = true) (calls_of evs).
Proof.
  induction n as [|n IH]; intros v st r st' H.
  - simpl in H. unfold ret in H. simplify_eq. exists []. by rewrite app_nil_r.
  - simpl in H. unfold_py. simpl in H.
    destruct (files_get client _ (name v)) as [v1|e].
    + apply IH in H as (evs & Ht & Hf). simpl in Ht.
      exists ([(session_state st, ESleep 2);
               (session_state st, ECall (FilesGet (name v)))] ++ evs).
      split; [by rewrite Ht, <- !app_assoc|].
      rewrite calls_of_app. apply Forall_app. split; [|done].
      by repeat constructor.
    + simplify_eq. simpl. eexists [_; _]. split; [by rewrite <- !app_assoc|].
      by repeat constructor.
Qed.

Lemma verdict_calls v st r st' :
  verdict v st = Some (r, st') →
  ∃ evs, trace st' = trace st ++ evs ∧ calls_of evs = [].
Proof.
  rewrite verdict_run. intros H. simplify_eq. simpl.
  eexists. split; [done|]. by destruct (String.eqb (state_name v) "FAILED").
Qed.

(** X1.  Once the bytes are staged, the staged file is gone when
    [process_video] ends, whether it returns a handle, returns [None] or
    raises; no other file is touched, so with a fresh temp name the disk is
    what it was before the call. *)
Theorem staged_file_removed_on_every_exit (fuel : nat) (uploaded : UploadedFile)
    (st : State) (path : string) (st1 : State) (r : Outcome (option File))
    (st' : State) :
  stage os uploaded st = Some (Ret path, st1) →
  process_video client os fuel uploaded st = Some (r, st') →
  disk st' !! path = None ∧
  (∀ other, other ≠ path → disk st' !! other = disk st !! other) ∧
  (disk st !! path = None → disk st' = disk st).
Proof.
  intros Hs H.
  destruct (process_video_removes_staged _ _ _ _ _ _ _ _ _ Hs H) as [Hgone Hd].
  split; [done|]. split.
  - intros other Hne. rewrite Hd. by apply lookup_delete_ne.
  - intros Hfresh. rewrite Hd. by apply delete_id.
Qed.

(** X2.  An ingestion leaves the session state alone and never calls the
    model: its remote calls are at most one upload, made first, followed by
    status re-fetches only. *)
Theorem ingestion_calls_upload_then_refetches (fuel : nat)
    (uploaded : UploadedFile) (st : State) (r : Outcome (option File))
    (st' : State) :
  process_video client os fuel uploaded st = Some (r, st') →
  session_state st' = session_state st ∧
  ∃ evs, trace st' = trace st ++ evs ∧
    (calls_of evs = [] ∨
     ∃ path gets, calls_of evs = FilesUpload path :: gets ∧
                  Forall (λ c, is_get c = true) gets).
Proof.
  intros H. split; [by apply process_video_session in H as [? _]|].
  destruct (stage_spec os uploaded st) as ([path|e] & d & Hs & _).
  - rewrite (process_video_staged _ _ _ _ _ _ _ Hs) in H.
    rewrite upload_and_wait_unfold in H. unfold bind at 1 in H.
    destruct (handshake client path _) as [[[v0|e] st2]|] eqn:Hh; [| |done].
    + apply handshake_ret in Hh as (_ & _ & Ht2). simpl in Ht2.
      match type of Ht2 with _ = _ ++ ?L => set (evs2 := L) in * end.
      assert (calls_of evs2 = [FilesUpload path]) as Hc2 by done.
      clearbody evs2. unfold bind at 1 in H.
      destruct (poll client fuel v0 st2) as [[[v|e] st3]|] eqn:Hp; [| |done].
      * apply poll_ends in Hp as (n & _ & Hobs & _).
        apply refetched_calls in Hobs as (evs3 & Ht3 & Hf3).
        destruct (verdict v st3) as [[r4 st4]|] eqn:Hv; [|done].
        apply verdict_calls in Hv as (evs4 & Ht4 & Hc4).
        injection H as <- <-. simpl. exists (evs2 ++ evs3 ++ evs4).
        split; [by rewrite Ht4, Ht3, Ht2, <- !app_assoc|].
        right. exists path, (calls_of evs3).
        rewrite !calls_of_app, Hc2, Hc4, app_nil_r. done.
      * apply poll_ends in Hp as (n & _ & Hobs & _).
        apply refetched_calls in Hobs as (evs3 & Ht3 & Hf3).
        injection H as <- <-. simpl. exists (evs2 ++ evs3).
        split; [by rewrite Ht3, Ht2, <- !app_assoc|].
        right. exists path, (calls_of evs3). by rewrite calls_of_app, Hc2.
    + apply handshake_raise in Hh as (evs & Ht & Hc). injection H as <- <-.
      simpl in *. exists evs. split; [done|]. destruct Hc as [->| ->]; [by left|].
      right. by exists path, [].
  - rewrite (process_video_unstaged _ _ _ _ _ _ _ Hs) in H. injection H as <- <-.
    simpl. exists []. split; [by rewrite app_nil_r|]. by left.
Qed.

(** X3.  When the status first leaves PROCESSING at the [n]-th re-fetch
    (at the upload itself for [n = 0]), [process_video] returns with any
    bound of at least [n] rounds: [None] for the status FAILED and the
    handle for any other status; it made exactly [n] re-fetches and slept
    [2 n] seconds, plus the 2 seconds it waits after reporting success. *)
Theorem ingestion_cost_and_result (fuel n : nat) (uploaded : UploadedFile)
    (st : State) (v : File) (st_n : State) :
  (∀ k, (k < n)%nat → ∃ vk stk,
     status_after client os k uploaded st = Some (Ret vk, stk) ∧
     state_name vk = "PROCESSING") →
  status_after client os n uploaded st = Some (Ret v, st_n) →
  state_name v ≠ "PROCESSING" →
  (n ≤ fuel)%nat →
  ∃ st' evs,
    process_video client os fuel uploaded st = Some (Ret (accepted v), st') ∧
    trace st' = trace st ++ evs ∧
    refetches evs = n ∧
    seconds_slept evs =
      (2 * Z.of_nat n + if String.eqb (state_name v) "FAILED" then 0 else 2)%Z.
Proof.
  intros Hbefore Hn Hv Hfuel.
  destruct (stage_spec os uploaded st) as ([path|e] & d & Hs & _).
  2: { rewrite (status_after_unstaged _ _ _ _ _ _ _ Hs) in Hn. done. }
  rewrite (status_after_staged _ _ _ _ _ _ _ Hs), submitted_unfold in Hn.
  unfold bind at 1 in Hn.
  destruct (handshake client path _) as [[[v0|e] st2]|] eqn:Hh; [| |done].
  2: { done. }
  assert (poll client fuel v0 st2 = Some (Ret v, st_n)) as Hp.
  { apply (poll_first n); [|done|done|done].
    intros k Hk. destruct (Hbefore k Hk) as (vk & stk & Hk' & Hvk).
    rewrite (status_after_staged _ _ _ _ _ _ _ Hs), submitted_unfold in Hk'.
    unfold bind at 1 in Hk'. rewrite Hh in Hk'. by exists vk, stk. }
  destruct (refetched_ret n _ _ _ _ Hn) as (_ & _ & evs3 & Ht3 & Hr3 & Hz3 & _).
  destruct (handshake_ret _ _ _ _ Hh) as (_ & _ & Ht2). simpl in Ht2.
  rewrite (process_video_staged _ _ _ _ _ _ _ Hs), upload_and_wait_unfold.
  unfold bind. rewrite Hh, Hp, verdict_run.
  eexists _, _. split; [reflexivity|]. simpl. rewrite Ht3, Ht2.
  split; [by rewrite <- !app_assoc|].
  rewrite !refetches_app, !seconds_slept_app, Hr3, Hz3.
  destruct (String.eqb (state_name v) "FAILED"); split; try done;
    unfold seconds_slept; simpl; lia.
Qed.

End IngestMore.

(** ** The blocks of the chat interface, one by one *)

Section Blocks.

Variable client : Client.

Lemma inspector_block model st :
  ∃ st' evs,
    inspector client model st = Some (Ret tt, st') ∧
    session_state st' = session_state st ∧ disk st' = disk st ∧
    trace st' = trace st ++ evs ∧
    calls_of evs = [CountTokens model [video_part (session_state st)]] ∧
    chat_shown evs = [].
Proof.
  pose proof (inspector_run client model st) as H. simpl in H.
  destruct (models_count_tokens client _ model _) as [t|e] in H;
    [destruct (int_true_div t 263) in H|];
    (eexists _, _; split; [exact H|]; simpl;
     split; [done|]; split; [done|]; split; [by rewrite <- app_assoc|]; done).
Qed.

Lemma debug_vision_block model clicked st :
  ∃ out st' evs,
    debug_vision client model clicked st = Some (out, st') ∧
    session_state st' = session_state st ∧ disk st' = disk st ∧
    trace st' = trace st ++ evs ∧
    calls_of evs =
      (if clicked
       then [GenerateContent model [video_part (session_state st); PText debug_prompt]]
       else []) ∧
    chat_shown evs = [] ∧
    (∀ e, out = Raise e → clicked = true).
Proof.
  destruct clicked.
  - rewrite debug_vision_run.
    destruct (models_generate_content client _ model _) as [text|e].
    + eexists _, _, _. split; [done|]. simpl. split; [done|]. split; [done|].
      rewrite <- app_assoc. split; [done|]. done.
    + eexists _, _, _. split; [done|]. simpl. split; [done|]. split; [done|].
      split; [done|]. done.
  - exists (Ret tt), st, []. rewrite app_nil_r. done.
Qed.

Lemma display_history_run h : ∀ st,
  display_history h st =
    Some (Ret tt,
          {| session_state := session_state st;
             disk := disk st;
             trace := trace st ++
               map (λ turn, (session_state st,
                             EShow (ChatMessage turn.1) KMarkdown turn.2)) h |}).
Proof.
  induction h as [|[role message] h IH]; intros st; simpl.
  - unfold ret. rewrite app_nil_r. by destruct st.
  - unfold show, emit, bind. rewrite IH. simpl. by rewrite <- app_assoc.
Qed.

Lemma chat_shown_replay ss (h : list (string * string)) :
  chat_shown (map (λ turn, (ss, EShow (ChatMessage turn.1) KMarkdown turn.2)) h) = h.
Proof.
  induction h as [|[role message] h IH]; [done|].
  rewrite map_cons.
  match goal with |- chat_shown (?x :: ?l) = _ =>
    change (x :: l) with ([x] ++ l) end.
  by rewrite chat_shown_app, IH.
Qed.

Lemma calls_of_replay ss (h : list (string * string)) :
  calls_of (map (λ turn, (ss, EShow (ChatMessage turn.1) KMarkdown turn.2)) h) = [].
Proof.
  induction h as [|[role message] h IH]; [done|].
  rewrite map_cons.
  match goal with |- calls_of (?x :: ?l) = _ =>
    change (x :: l) with ([x] ++ l) end.
  by rewrite calls_of_app, IH.
Qed.

Lemma ask_block model query st :
  ∃ st' evs tail,
    ask client model query st = Some (Ret tt, st') ∧
    disk st' = disk st ∧
    trace st' = trace st ++ evs ∧
    calls_of evs =
      [GenerateContent model [video_part (session_state st); PText query]] ∧
    processed_video (session_state st') = processed_video (session_state st) ∧
    current_file_name (session_state st') = current_file_name (session_state st) ∧
    chat_history (session_state st') = chat_history (session_state st) ++ tail ∧
    chat_shown evs = tail ∧
    turn_tail (Some query) tail.
Proof.
  pose proof (ask_run client model query st) as H. simpl in H.
  destruct (models_generate_content client _ model _) as [answer|e] in H.
  - eexists _, _, [("user", query); ("assistant", answer)].
    split; [exact H|]. simpl. split; [done|].
    split; [by rewrite <- !app_assoc|].
    split; [done|]. split; [done|]. split; [done|].
    split; [by rewrite <- app_assoc|]. split; [done|]. right. by exists answer.
  - eexists _, _, [("user", query)].
    split; [exact H|]. simpl. split; [done|].
    split; [by rewrite <- !app_assoc|].
    split; [done|]. split; [done|]. split; [done|].
    split; [done|]. split; [done|]. by left.
Qed.

Lemma chat_input_block inp st :
  ∃ st' evs tail,
    chat_input client (model_name inp) (user_query inp) st = Some (Ret tt, st') ∧
    disk st' = disk st ∧
    trace st' = trace st ++ evs ∧
    calls_of evs =
      match submitted_query inp with
      | Some q => [GenerateContent (model_name inp)
                     [video_part (session_state st); PText q]]
      | None => []
      end ∧
    processed_video (session_state st') = processed_video (session_state st) ∧
    current_file_name (session_state st') = current_file_name (session_state st) ∧
    chat_history (session_state st') = chat_history (session_state st) ++ tail ∧
    chat_shown evs = tail ∧
    turn_tail (submitted_query inp) tail.
Proof.
  unfold chat_input, submitted_query. destruct (user_query inp) as [q|].
  - destruct (truthy q).
    + apply ask_block.
    + exists st, [], []. rewrite !app_nil_r. done.
  - exists st, [], []. rewrite !app_nil_r. done.
Qed.

End Blocks.

(** ** The chat interface over a stored handle *)

Section Ready.

Variable client : Client.
Variable os : Os.

(** Everything a pass through the chat interface does when a handle is
    stored: it ends normally unless the vision check raises. *)
Lemma chat_interface_ready inp st v :
  processed_video (session_state st) = Some v →
  ∃ out st' evs added,
    chat_interface client inp st = Some (out, st') ∧
    disk st' = disk st ∧
    trace st' = trace st ++ evs ∧
    processed_video (session_state st') = Some v ∧
    current_file_name (session_state st') = current_file_name (session_state st) ∧
    chat_history (session_state st') = chat_history (session_state st) ++ added ∧
    match out with
    | Ret _ =>
        calls_of evs = model_calls inp v ∧
        chat_shown evs = chat_history (session_state st') ∧
        turn_tail (submitted_query inp) added
    | Raise _ =>
        check_video_vision inp = true ∧
        calls_of evs =
          [CountTokens (model_name inp) [PFile v];
           GenerateContent (model_name inp) [PFile v; PText debug_prompt]] ∧
        chat_shown evs = [] ∧ added = []
    end.
Proof.
  intros Hv. unfold chat_interface. unfold bind at 1. unfold get_session.
  rewrite bool_decide_eq_true_2 by (by rewrite Hv).
  assert (video_part (session_state st) = PFile v) as Hpart
    by (unfold video_part; by rewrite Hv).
  destruct (inspector_block client (model_name inp) st)
    as (st1 & evs1 & Hrun1 & Hs1 & Hd1 & Ht1 & Hc1 & Hm1).
  rewrite Hpart in Hc1.
  destruct (debug_vision_block client (model_name inp) (check_video_vision inp) st1)
    as (out2 & st2 & evs2 & Hrun2 & Hs2 & Hd2 & Ht2 & Hc2 & Hm2 & Hraise2).
  rewrite Hs1, Hpart in Hc2.
  unfold bind at 1. rewrite Hrun1. unfold bind at 1. rewrite Hrun2.
  destruct out2 as [[]|e].
  - unfold bind at 1. unfold get_session. unfold bind at 1.
    rewrite display_history_run.
    set (evs3 := map (λ turn : string * string,
                        (session_state st2,
                         EShow (ChatMessage turn.1) KMarkdown turn.2))
                     (chat_history (session_state st2))).
    assert (chat_shown evs3 = chat_history (session_state st)) as Hm3
      by (subst evs3; by rewrite chat_shown_replay, Hs2, Hs1).
    assert (calls_of evs3 = []) as Hc3 by (subst evs3; apply calls_of_replay).
    clearbody evs3.
    match goal with |- context [chat_input client _ _ ?s] => set (st3 := s) end.
    destruct (chat_input_block client inp st3)
      as (st4 & evs4 & added & Hrun4 & Hd4 & Ht4 & Hc4 & Hp4 & Hn4 & Hh4 & Hm4 & Hadded).
    subst st3. simpl in Hd4, Ht4, Hc4, Hp4, Hn4, Hh4.
    rewrite Hs2, Hs1, Hpart in Hc4.
    rewrite Hs2, Hs1 in Hh4. rewrite Hs2, Hs1, Hv in Hp4. rewrite Hs2, Hs1 in Hn4.
    exists (Ret tt), st4, (evs1 ++ evs2 ++ evs3 ++ evs4), added.
    split; [exact Hrun4|]. split; [congruence|].
    split; [by rewrite Ht4, Ht2, Ht1, <- !app_assoc|].
    split; [done|]. split; [done|]. split; [done|].
    split; [|split; [|done]].
    + rewrite !calls_of_app, Hc1, Hc2, Hc3, Hc4. unfold model_calls.
      simpl. by destruct (check_video_vision inp).
    + by rewrite !chat_shown_app, Hm1, Hm2, Hm3, Hm4, Hh4.
  - exists (Raise e), st2, (evs1 ++ evs2), [].
    split; [done|]. split; [congruence|].
    split; [by rewrite Ht2, Ht1, <- !app_assoc|].
    split; [by rewrite Hs2, Hs1|]. split; [by rewrite Hs2, Hs1|].
    split; [by rewrite app_nil_r, Hs2, Hs1|].
    rewrite (Hraise2 e eq_refl) in *. split; [done|].
    split; [by rewrite calls_of_app, Hc1, Hc2|].
    split; [by rewrite chat_shown_app, Hm1, Hm2|]. done.
Qed.

(** A run that brings nothing new goes straight to the chat interface. *)
Lemma script_nothing_new fuel inp st :
  truthy (api_key inp) = true →
  brings_nothing_new inp st →
  script client os fuel inp st = chat_interface client inp st.
Proof.
  intros Hk Hn. unfold script. rewrite Hk. unfold bind at 1.
  unfold brings_nothing_new in Hn. destruct (uploaded_file inp) as [uploaded|].
  - by rewrite on_upload_same.
  - done.
Qed.

Lemma script_no_key fuel inp st :
  truthy (api_key inp) = false →
  script client os fuel inp st =
    Some (Ret tt,
          {| session_state := session_state st;
             disk := disk st;
             trace := trace st ++
               [(session_state st,
                 EShow Page KWarning
                   "Please enter your Google API Key in the sidebar to proceed.")] |}).
Proof. intros Hk. unfold script. by rewrite Hk. Qed.

Lemma ingestion_shows_no_chat evs :
  Forall (λ x : SessionState * Event, ingestion_event x.2) evs → chat_shown evs = [].
Proof.
  induction 1 as [|[ss ev] evs Hx _ IH]; [done|].
  change ((ss, ev) :: evs) with ([(ss, ev)] ++ evs).
  rewrite chat_shown_app, IH, app_nil_r.
  destruct ev as [c|seconds|[] k msg]; simpl in Hx; done.
Qed.

(** ** Well-formed transcripts *)

Lemma well_formed_nil : well_formed_transcript [].
Proof. intros i role msg H. by rewrite lookup_nil in H. Qed.

Lemma well_formed_app h t :
  well_formed_transcript h → well_formed_transcript t →
  well_formed_transcript (h ++ t).
Proof.
  intros Hh Ht i role msg Hi.
  destruct (decide (i < length h)%nat) as [Hlt|Hge].
  - rewrite lookup_app_l in Hi by done.
    destruct (Hh _ _ _ Hi) as [->|(-> & q & Hpos & Hprev)]; [by left|].
    right. split; [done|]. exists q. split; [done|].
    by rewrite lookup_app_l by lia.
  - rewrite lookup_app_r in Hi by lia.
    destruct (Ht _ _ _ Hi) as [->|(-> & q & Hpos & Hprev)]; [by left|].
    right. split; [done|]. exists q. split; [lia|].
    rewrite lookup_app_r by lia.
    by replace (i - 1 - length h)%nat with (i - length h - 1)%nat by lia.
Qed.

Lemma well_formed_tail query added :
  turn_tail query added → well_formed_transcript added.
Proof.
  destruct query as [q|]; simpl.
  - intros [->|[answer ->]] i role msg Hi.
    + destruct i as [|i]; simpl in Hi; [|done]. simplify_eq. by left.
    + destruct i as [|[|i]]; simpl in Hi; [| |done]; simplify_eq.
      * by left.
      * right. split; [done|]. exists q. split; [lia|done].
  - intros ->. apply well_formed_nil.
Qed.

Lemma turn_tail_length query added : turn_tail query added → (length added ≤ 2)%nat.
Proof.
  destruct query as [q|]; simpl.
  - intros [->|[answer ->]]; simpl; lia.
  - intros ->. simpl. lia.
Qed.

End Ready.

(** ** Whole runs, again *)

Section RunProperties.

Variable client : Client.
Variable os : Os.

(** X4.  Displaying the history renders every stored turn once, in order
    and under its role, makes no remote call and changes neither the
    session state nor the disk. *)
Theorem history_replayed_in_order (h : list (string * string)) (st : State) :
  ∃ st' evs,
    display_history h st = Some (Ret tt, st') ∧
    session_state st' = session_state st ∧ disk st' = disk st ∧
    trace st' = trace st ++ evs ∧
    chat_shown evs = h ∧ length evs = length h ∧ calls_of evs = [].
Proof.
  rewrite display_history_run. eexists _, _. split; [done|]. simpl.
  split; [done|]. split; [done|]. split; [done|].
  split; [apply chat_shown_replay|]. split; [apply length_map|].
  apply calls_of_replay.
Qed.

(** X5.  When the remote answers a question, [ask] appends the user turn and
    then the assistant turn with the answer text, renders both, and leaves
    handle and identity as they were. *)
Theorem answered_ask_appends_both_turns (model query answer : string)
    (st : State) :
  models_generate_content client
    (history st ++ [EShow (ChatMessage "user") KMarkdown query])
    model [video_part (session_state st); PText query] = Ret answer →
  ∃ st' evs,
    ask client model query st = Some (Ret tt, st') ∧
    trace st' = trace st ++ evs ∧
    chat_history (session_state st') =
      chat_history (session_state st) ++ [("user", query); ("assistant", answer)] ∧
    chat_shown evs = [("user", query); ("assistant", answer)] ∧
    processed_video (session_state st') = processed_video (session_state st) ∧
    current_file_name (session_state st') = current_file_name (session_state st).
Proof.
  intros Hr. pose proof (ask_run client model query st) as H. simpl in H.
  rewrite Hr in H. eexists _, _. split; [exact H|]. simpl.
  split; [by rewrite <- !app_assoc|]. split; [by rewrite <- app_assoc|]. done.
Qed.

(** X6.  A run that brings no file, or a file under the stored name, ends
    for every bound on the poll loop (it never polls), keeps disk, handle
    and identity, and can only append to the transcript: at most the
    submitted question and its answer, and only when a handle is stored. *)
Theorem run_without_new_upload_only_appends (fuel : nat) (inp : Inputs)
    (st : State) :
  brings_nothing_new inp st →
  ∃ out st' added,
    script client os fuel inp st = Some (out, st') ∧
    disk st' = disk st ∧
    processed_video (session_state st') = processed_video (session_state st) ∧
    current_file_name (session_state st') = current_file_name (session_state st) ∧
    chat_history (session_state st') = chat_history (session_state st) ++ added ∧
    (length added ≤ 2)%nat ∧
    (added ≠ [] →
       is_Some (processed_video (session_state st)) ∧
       turn_tail (submitted_query inp) added).
Proof.
  intros Hn. destruct (truthy (api_key inp)) eqn:Hk.
  - rewrite script_nothing_new by done.
    destruct (processed_video (session_state st)) as [v|] eqn:Hv.
    + destruct (chat_interface_ready client inp st v Hv)
        as (out & st' & evs & added & Hrun & Hd & _ & Hp & Hc & Hh & Hout).
      exists out, st', added. split; [done|]. split; [done|].
      split; [done|]. split; [done|]. split; [done|].
      destruct out as [[]|e].
      * destruct Hout as (_ & _ & Ht). split; [by eapply turn_tail_length|].
        intros _. split; [by eexists|done].
      * destruct Hout as (_ & _ & _ & ->). split; [simpl; lia|done].
    + destruct (chat_interface_closed client inp st Hv) as (k & msg & Hrun).
      eexists _, _, []. split; [exact Hrun|]. simpl. rewrite app_nil_r.
      repeat split; try done. simpl; lia.
  - rewrite script_no_key by done. eexists _, _, []. split; [done|]. simpl.
    rewrite app_nil_r. repeat split; try done. simpl; lia.
Qed.



End RunProperties.

(** ** What holds of the session state between runs *)

Section Invariant.

Variable client : Client.
Variable os : Os.

Lemma session_ok_initial : session_ok initial_session.
Proof.
  split; [done|]. split; [by intros [? ?]|]. split; [done|].
  apply well_formed_nil.
Qed.

Lemma session_ok_fresh_upload file_name (video_object : option File) :
  (∀ v, video_object = Some v →
        state_name v ≠ "PROCESSING" ∧ state_name v ≠ "FAILED") →
  session_ok {| chat_history := [];
                processed_video := video_object;
                current_file_name := Some file_name |}.
Proof.
  intros Hv. split; [done|]. split; [by eexists|]. split; [done|].
  apply well_formed_nil.
Qed.

Lemma chat_interface_keeps_ok inp st out st' :
  session_ok (session_state st) →
  chat_interface client inp st = Some (out, st') →
  session_ok (session_state st').
Proof.
  intros Hok H.
  destruct (processed_video (session_state st)) as [v|] eqn:Hv.
  - destruct Hok as (Ha & Hb & Hc & Hd).
    destruct (chat_interface_ready client inp st v Hv)
      as (out2 & st2 & evs & added & Hrun & _ & _ & Hp & Hn & Hh & Hout).
    rewrite Hrun in H. injection H as -> ->.
    split; [by rewrite Hp|]. split; [by rewrite Hn; intros _; apply Hb; eexists|].
    split; [by rewrite Hp, <- Hv|]. rewrite Hh.
    apply well_formed_app; [done|]. destruct out as [[]|e].
    + destruct Hout as (_ & _ & Ht). by eapply well_formed_tail.
    + destruct Hout as (_ & _ & _ & ->). apply well_formed_nil.
  - destruct (chat_interface_closed client inp st Hv) as (k & msg & Hrun).
    rewrite Hrun in H. by injection H as _ <-.
Qed.

Lemma on_upload_keeps_ok fuel uploaded st out st' :
  session_ok (session_state st) →
  on_upload client os fuel uploaded st = Some (out, st') →
  session_ok (session_state st').
Proof.
  intros Hok H.
  destruct (decide (current_file_name (session_state st) = Some (upload_name uploaded)))
    as [Hn|Hn].
  - rewrite on_upload_same in H by done. by injection H as _ <-.
  - rewrite on_upload_new in H by done.
    destruct (process_video client os fuel uploaded _) as [[[vo|e] st1]|] eqn:Hpv;
      [| |done].
    + destruct (process_video_session _ _ _ _ _ _ _ Hpv) as (Hs & _).
      injection H as _ <-. simpl. rewrite Hs. simpl.
      apply session_ok_fresh_upload. intros v ->.
      by eapply process_video_some.
    + destruct (process_video_session _ _ _ _ _ _ _ Hpv) as (Hs & _).
      injection H as _ <-. rewrite Hs. by apply session_ok_fresh_upload.
Qed.

Lemma rerun_keeps_ok fuel inp st st' :
  session_ok (session_state st) →
  rerun client os fuel inp st = Some st' →
  session_ok (session_state st').
Proof.
  intros Hok H. unfold rerun in H.
  destruct (script client os fuel inp st) as [[out st2]|] eqn:Hrun; [|done].
  injection H as ->. unfold script in Hrun.
  destruct (truthy (api_key inp)).
  - unfold bind at 1 in Hrun. destruct (uploaded_file inp) as [uploaded|].
    + destruct (on_upload client os fuel uploaded st) as [[[[]|e] st1]|] eqn:Hu;
        [| |done].
      * apply on_upload_keeps_ok in Hu; [|done].
        by eapply chat_interface_keeps_ok.
      * injection Hrun as _ <-. by eapply on_upload_keeps_ok.
    + unfold ret in Hrun. by eapply chat_interface_keeps_ok.
  - unfold show, emit in Hrun. by injection Hrun as _ <-.
Qed.

Lemma reruns_keep_ok fuel inps : ∀ st st',
  session_ok (session_state st) →
  reruns client os fuel inps st = Some st' →
  session_ok (session_state st').
Proof.
  induction inps as [|inp inps IH]; intros st st' Hok H; simpl in H.
  - by injection H as <-.
  - destruct (rerun client os fuel inp st) as [st1|] eqn:Hrun; [|done].
    eapply IH; [|exact H]. by eapply rerun_keeps_ok.
Qed.

(** X10.  Whatever runs a session has been through since its state was
    initialised, whatever the remote did and however the runs ended: a
    non-empty transcript comes with a stored handle, a stored handle comes
    with a stored file name and was reported with a status other than
    PROCESSING and FAILED, every turn is a user or an assistant turn, and
    every assistant turn directly follows a user turn. *)
Theorem session_stays_well_formed (fuel : nat) (inps : list Inputs)
    (files : gmap string (list byte)) (past : list (SessionState * Event))
    (st' : State) :
  reruns client os fuel inps
    {| session_state := initial_session; disk := files; trace := past |} = Some st' →
  session_ok (session_state st').
Proof.
  intros H. eapply reruns_keep_ok; [|exact H]. apply session_ok_initial.
Qed.

(** X11.  In the run where the ingestion of a new upload returns a handle,
    the chat interface runs at once over that handle: the transcript of the
    previous video is gone (the transcript holds only what this run added),
    the new handle and name are stored, and every model request of the run
    carries the new handle. *)
Theorem first_run_uses_new_handle (fuel : nat) (inp : Inputs)
    (uploaded : UploadedFile) (st : State) (v : File) (st1 : State) :
  truthy (api_key inp) = true →
  uploaded_file inp = Some uploaded →
  current_file_name (session_state st) ≠ Some (upload_name uploaded) →
  process_video client os fuel uploaded (begin_ingest uploaded st)
    = Some (Ret (Some v), st1) →
  ∃ out st' evs added,
    script client os fuel inp st = Some (out, st') ∧
    trace st' = trace st1 ++ evs ∧
    session_state st' =
      {| chat_history := added;
         processed_video := Some v;
         current_file_name := Some (upload_name uploaded) |} ∧
    (length added ≤ 2)%nat ∧
    calls_of evs `prefix_of` model_calls inp v ∧
    (out = Ret tt →
       calls_of evs = model_calls inp v ∧ turn_tail (submitted_query inp) added).
Proof.
  intros Hk Hu Hn Hpv. unfold script. rewrite Hk, Hu. unfold bind at 1.
  rewrite on_upload_new by done. rewrite Hpv.
  destruct (process_video_session _ _ _ _ _ _ _ Hpv) as (Hs & _). simpl in Hs.
  match goal with |- context [chat_interface client inp ?s] => set (st2 := s) end.
  destruct (chat_interface_ready client inp st2 v eq_refl)
    as (out & st' & evs & added & Hrun & _ & Ht & Hp & Hc & Hh & Hout).
  subst st2. simpl in Ht, Hc, Hh. rewrite Hs in Hc, Hh. simpl in Hc, Hh.
  exists out, st', evs, added. split; [done|]. split; [done|]. split.
  { destruct (session_state st'). simpl in *. congruence. }
  destruct out as [[]|e].
  - destruct Hout as (Hcalls & _ & Ht'). split; [by eapply turn_tail_length|].
    rewrite Hcalls. done.
  - destruct Hout as (Hclick & Hcalls & _ & ->). split; [simpl; lia|].
    rewrite Hcalls. unfold model_calls. rewrite Hclick. split; [by eexists|done].
Qed.

End Invariant.

(** ** Token counts that are whole seconds *)

Section WholeSeconds.

Local Open Scope Z_scope.

Lemma round_half_even_exact x d : 0 < d → round_half_even (x * d) d = x.
Proof.
  intros Hd. unfold round_half_even.
  rewrite Z.div_mul by lia. rewrite Z.mod_mul by lia.
  by rewrite (proj2 (Z.ltb_lt (2 * 0) d)) by lia.
Qed.

(** [263 * s / 263] is [s], exactly, for every [s] a double can hold. *)
Lemma whole_seconds_exact (s : Z) :
  0 < s < 2 ^ 53 →
  ∃ p, 0 ≤ p ∧
    int_true_div (263 * s) 263 = Ret {| mant := s * 2 ^ p; expo := - p |}.
Proof.
  intros [Hpos Hlt].
  assert (0 < 263 * s) as Ha by lia.
  assert (8 ≤ Z.log2 (263 * s)) as Hlog.
  { change 8 with (Z.log2 263). apply Z.log2_le_mono. lia. }
  destruct (true_div_pos_scale (263 * s) 263 Ha) as (e0 & Hlo & Hhi & Hf); [done| |].
  { change (Z.log2 263) with 8. lia. }
  assert (e0 ≤ 0) as He0.
  { destruct (Z_le_gt_dec e0 0) as [|Hgt]; [done|]. exfalso.
    rewrite (Z.max_r 0 e0) in Hlo by lia. rewrite (Z.max_l 0 (- e0)) in Hlo by lia.
    change (2 ^ 0) with 1 in Hlo.
    assert (2 ≤ 2 ^ e0).
    { change 2 with (2 ^ 1) at 1. apply Z.pow_le_mono_r; lia. }
    assert (2 ^ 53 = 2 * 2 ^ 52) as H53 by reflexivity.
    assert (0 < 2 ^ 52) as H52 by reflexivity.
    rewrite H53 in Hlt. set (c := 2 ^ 52) in *. set (D := 2 ^ e0) in *. nia. }
  rewrite (Z.max_l 0 e0) in Hlo, Hhi, Hf by lia.
  rewrite (Z.max_r 0 (- e0)) in Hlo, Hhi, Hf by lia.
  change (2 ^ 0) with 1 in *. rewrite Z.mul_1_r in Hlo, Hhi, Hf.
  assert (0 < 2 ^ (- e0)) as HP by (apply Z.pow_pos_nonneg; lia).
  replace (263 * s * 2 ^ (- e0)) with (s * 2 ^ (- e0) * 263) in Hf, Hhi by ring.
  rewrite round_half_even_exact in Hf by lia. simpl in Hf.
  assert (s * 2 ^ (- e0) < 2 ^ 53) as Hm by lia.
  rewrite (proj2 (Z.eqb_neq _ _)) in Hf by lia.
  exists (- e0). split; [lia|].
  unfold int_true_div. change (263 =? 0) with false. cbv iota.
  rewrite (proj2 (Z.eqb_neq (263 * s) 0)) by lia.
  rewrite (Z.abs_eq (263 * s)) by lia. change (Z.abs 263) with 263.
  rewrite Hf. simpl expo. simpl mant.
  rewrite (proj2 (Z.ltb_ge _ _)) by lia.
  rewrite (proj2 (Z.sgn_pos_iff (263 * s))) by lia.
  change (Z.sgn 263) with 1. simpl. by rewrite Z.opp_involutive.
Qed.

(** A whole number held with a scaled mantissa prints with [.00]. *)
Lemma format_2f_whole (s p : Z) :
  0 ≤ s → 0 ≤ p →
  format_2f {| mant := s * 2 ^ p; expo := - p |} = (digits s ++ ".00")%string.
Proof.
  intros Hs Hp. unfold format_2f. simpl mant. simpl expo.
  assert (0 < 2 ^ p) as HP by (apply Z.pow_pos_nonneg; lia).
  rewrite (proj2 (Z.ltb_ge _ _)) by nia.
  rewrite Z.opp_involutive. rewrite (Z.max_r 0 p) by lia.
  rewrite (Z.max_l 0 (- p)) by lia. change (2 ^ 0) with 1. rewrite Z.mul_1_r.
  rewrite (Z.abs_eq (s * 2 ^ p)) by nia.
  replace (s * 2 ^ p * 100) with (s * 100 * 2 ^ p) by ring.
  rewrite round_half_even_exact by done.
  rewrite Z.div_mul by lia. rewrite Z.mod_mul by lia.
  replace (s * 100) with (s * 10 * 10) by ring. rewrite Z.mod_mul by lia.
  reflexivity.
Qed.

End WholeSeconds.

Section WholeSecondsShown.

Variable client : Client.

(** X12.  When the count is a whole number of seconds' worth of tokens,
    [263 * s] with [s] below [2^53], the division is exact and the inspector
    shows [s] followed by [.00]: no rounding error shows in the estimate. *)
Theorem whole_seconds_shown_exactly (model : string) (st : State) (s : Z) :
  models_count_tokens client (history st) model [video_part (session_state st)]
    = Ret (263 * s)%Z →
  (0 ≤ s < 2 ^ 53)%Z →
  ∃ st',
    inspector client model st = Some (Ret tt, st') ∧
    trace st' = trace st ++
      [(session_state st, ECall (CountTokens model [video_part (session_state st)]));
       (session_state st,
        EShow Sidebar KWrite
          ("**Total Tokens:** " ++ format_thousands (263 * s))%string);
       (session_state st,
        EShow Sidebar KWrite
          ("**Est. Processed Duration:** " ++ (digits s ++ ".00") ++ " seconds")%string)].
Proof.
  intros Hcount [H0 Hlt].
  pose proof (inspector_run client model st) as Hrun. simpl in Hrun.
  rewrite Hcount in Hrun.
  assert (∃ f, int_true_div (263 * s) 263 = Ret f ∧
               format_2f f = (digits s ++ ".00")%string) as (f & Hdiv & Hfmt).
  { destruct (decide (s = 0)) as [->|Hne].
    - eexists. split; [reflexivity|]. reflexivity.
    - destruct (whole_seconds_exact s) as (p & Hp & Hdiv); [lia|].
      eexists. split; [exact Hdiv|]. apply format_2f_whole; lia. }
  rewrite Hdiv, Hfmt in Hrun. eexists. split; [exact Hrun|]. simpl.
  by rewrite <- app_assoc.
Qed.

End WholeSecondsShown.

(** ** Failing ingestions, seen from the run *)

Section FailingIngestion.

Variable client : Client.
Variable os : Os.

Lemma handshake_raises path st data e :
  disk st !! path = Some data →
  files_upload client
    (history st ++ [EShow Placeholder KInfo "Uploading video to Google GenAI..."])
    path data = Raise e →
  handshake client path st =
    Some (Raise e,
          {| session_state := session_state st;
             disk := disk st;
             trace := trace st ++
               [(session_state st,
                 EShow Placeholder KInfo "Uploading video to Google GenAI...");
                (session_state st, ECall (FilesUpload path))] |}).
Proof.
  intros Hd Hup. unfold handshake, call_files_upload. unfold_py.
  unfold history in *. simpl. rewrite Hd. simpl. rewrite fmap_app. simpl.
  rewrite Hup. by rewrite <- app_assoc.
Qed.

(** X13.  When the remote rejects the upload request itself, [process_video]
    raises that exception for every bound on the poll loop: the remote was
    asked with the staged path and exactly the uploaded bytes, no status was
    ever fetched, the session state is untouched and the staged file is
    gone. *)
Theorem upload_error_propagates (fuel : nat) (uploaded : UploadedFile)
    (st : State) (path : string) (st1 : State) (e : string) :
  stage os uploaded st = Some (Ret path, st1) →
  files_upload client
    (history st ++ [EShow Placeholder KInfo "Uploading video to Google GenAI..."])
    path (upload_bytes uploaded) = Raise e →
  ∃ st' evs,
    process_video client os fuel uploaded st = Some (Raise e, st') ∧
    session_state st' = session_state st ∧
    disk st' !! path = None ∧
    trace st' = trace st ++ evs ∧
    calls_of evs = [FilesUpload path].
Proof.
  intros Hs Hup.
  destruct (stage_spec os uploaded st) as (out & d & Hs' & Hd).
  rewrite Hs in Hs'. injection Hs' as <- ->. subst d.
  rewrite (process_video_staged _ _ _ _ _ _ _ Hs), upload_and_wait_unfold.
  unfold bind at 1.
  rewrite (handshake_raises path _ (upload_bytes uploaded) e);
    [|simpl; apply lookup_insert_eq|exact Hup].
  eexists _, [_; _]. split; [reflexivity|]. simpl.
  split; [done|]. split; [apply lookup_delete_eq|]. done.
Qed.

Lemma chat_interface_closed_message inp st :
  processed_video (session_state st) = None →
  chat_interface client inp st =
    Some (Ret tt,
          {| session_state := session_state st;
             disk := disk st;
             trace := trace st ++
               [(session_state st,
                 if bool_decide (is_Some (uploaded_file inp))
                 then EShow Page KWarning "Video upload failed. Please try again."
                 else EShow Page KInfo "Please upload a video to start chatting.")] |}).
Proof.
  intros Hv. unfold chat_interface. unfold bind at 1. unfold get_session.
  rewrite bool_decide_eq_false_2 by (rewrite Hv; by intros [? ?]).
  by destruct (bool_decide _).
Qed.

(** X14.  How a run ends when the ingestion of a new upload does not give a
    handle.  If [process_video] returns [None], the run ends normally and the
    only thing it does after the ingestion is to show the warning that the
    upload failed.  If [process_video] raises, the run ends with that
    exception right there: nothing is shown or called after the ingestion. *)
Theorem run_after_failed_ingestion (fuel : nat) (inp : Inputs)
    (uploaded : UploadedFile) (st : State) (r : Outcome (option File))
    (st1 : State) :
  truthy (api_key inp) = true →
  uploaded_file inp = Some uploaded →
  current_file_name (session_state st) ≠ Some (upload_name uploaded) →
  process_video client os fuel uploaded (begin_ingest uploaded st) = Some (r, st1) →
  match r with
  | Ret None =>
      script client os fuel inp st =
        Some (Ret tt,
              {| session_state := cleared_session (upload_name uploaded);
                 disk := disk st1;
                 trace := trace st1 ++
                   [(cleared_session (upload_name uploaded),
                     EShow Page KWarning "Video upload failed. Please try again.")] |})
  | Raise e => script client os fuel inp st = Some (Raise e, st1)
  | Ret (Some _) => True
  end.
Proof.
  intros Hk Hu Hn Hpv.
  destruct (process_video_session _ _ _ _ _ _ _ Hpv) as (Hs & _). simpl in Hs.
  destruct r as [[v|]|e]; [done| |].
  - unfold script. rewrite Hk, Hu. unfold bind at 1.
    rewrite on_upload_new by done. rewrite Hpv.
    rewrite chat_interface_closed_message by done. simpl.
    rewrite Hu, Hs. by rewrite bool_decide_eq_true_2 by (by eexists).
  - unfold script. rewrite Hk, Hu. unfold bind at 1.
    rewrite on_upload_new by done. by rewrite Hpv.
Qed.

End FailingIngestion.

(** ** What the chat area holds after a run *)

Section Rendered.

Variable client : Client.
Variable os : Os.

Lemma chat_rendered_app evs1 evs2 :
  chat_rendered (evs1 ++ evs2) = chat_rendered evs1 ++ chat_rendered evs2.
Proof. unfold chat_rendered. apply omap_app. Qed.

Lemma as_markdown_app h1 h2 : as_markdown (h1 ++ h2) = as_markdown h1 ++ as_markdown h2.
Proof. unfold as_markdown. apply map_app. Qed.

Lemma ingestion_renders_no_chat evs :
  Forall (λ x : SessionState * Event, ingestion_event x.2) evs → chat_rendered evs = [].
Proof.
  induction 1 as [|[ss ev] evs Hx _ IH]; [done|].
  change ((ss, ev) :: evs) with ([(ss, ev)] ++ evs).
  rewrite chat_rendered_app, IH, app_nil_r.
  destruct ev as [c|seconds|[] k msg]; simpl in Hx; done.
Qed.

Lemma inspector_renders_no_chat model st :
  ∃ st' evs,
    inspector client model st = Some (Ret tt, st') ∧
    session_state st' = session_state st ∧
    trace st' = trace st ++ evs ∧ chat_rendered evs = [].
Proof.
  pose proof (inspector_run client model st) as H. simpl in H.
  destruct (models_count_tokens client _ model _) as [t|e] in H;
    [destruct (int_true_div t 263) in H|];
    (eexists _, _; split; [exact H|]; simpl;
     split; [done|]; split; [by rewrite <- app_assoc|]; done).
Qed.

Lemma debug_vision_renders_no_chat model clicked st :
  ∃ out st' evs,
    debug_vision client model clicked st = Some (out, st') ∧
    session_state st' = session_state st ∧
    trace st' = trace st ++ evs ∧ chat_rendered evs = [].
Proof.
  destruct clicked.
  - rewrite debug_vision_run.
    destruct (models_generate_content client _ model _) as [text|e].
    + eexists _, _, _. split; [done|]. simpl. split; [done|].
      split; [by rewrite <- app_assoc|]. done.
    + eexists _, _, _. split; [done|]. simpl. split; [done|]. done.
  - exists (Ret tt), st, []. by rewrite app_nil_r.
Qed.

Lemma chat_rendered_replay ss (h : list (string * string)) :
  chat_rendered
    (map (λ turn, (ss, EShow (ChatMessage turn.1) KMarkdown turn.2)) h)
  = as_markdown h.
Proof.
  induction h as [|[role message] h IH]; [done|].
  rewrite map_cons.
  match goal with |- chat_rendered (?x :: ?l) = _ =>
    change (x :: l) with ([x] ++ l) end.
  rewrite chat_rendered_app, IH. done.
Qed.

(** What a question adds to the transcript and to the chat area: both turns
    when it is answered, the user turn and an error message when it fails. *)
Lemma ask_renders model query st :
  ∃ st' evs added errs,
    ask client model query st = Some (Ret tt, st') ∧
    trace st' = trace st ++ evs ∧
    chat_history (session_state st') = chat_history (session_state st) ++ added ∧
    chat_rendered evs = as_markdown added ++ errs ∧
    ((added = [("user", query)] ∧ ∃ e, errs = [error_message e]) ∨
     ((∃ answer, added = [("user", query); ("assistant", answer)]) ∧ errs = [])).
Proof.
  pose proof (ask_run client model query st) as H. simpl in H.
  destruct (models_generate_content client _ model _) as [answer|e] in H.
  - eexists _, _, [("user", query); ("assistant", answer)], [].
    split; [exact H|]. simpl. split; [by rewrite <- !app_assoc|].
    split; [by rewrite <- app_assoc|]. split; [done|]. right. by eauto.
  - eexists _, _, [("user", query)], [error_message e].
    split; [exact H|]. simpl. split; [by rewrite <- !app_assoc|].
    split; [done|]. split; [done|]. left. by eauto.
Qed.

Lemma chat_input_renders inp st :
  ∃ st' evs added errs,
    chat_input client (model_name inp) (user_query inp) st = Some (Ret tt, st') ∧
    trace st' = trace st ++ evs ∧
    chat_history (session_state st') = chat_history (session_state st) ++ added ∧
    chat_rendered evs = as_markdown added ++ errs ∧
    match submitted_query inp with
    | Some q =>
        (added = [("user", q)] ∧ ∃ e, errs = [error_message e]) ∨
        ((∃ answer, added = [("user", q); ("assistant", answer)]) ∧ errs = [])
    | None => added = [] ∧ errs = []
    end.
Proof.
  unfold chat_input, submitted_query. destruct (user_query inp) as [q|].
  - destruct (truthy q).
    + apply ask_renders.
    + exists st, [], [], []. by rewrite !app_nil_r.
  - exists st, [], [], []. by rewrite !app_nil_r.
Qed.

(** The chat area after a pass through the chat interface that ends
    normally over a stored handle. *)
Lemma chat_interface_renders inp st v st' :
  processed_video (session_state st) = Some v →
  chat_interface client inp st = Some (Ret tt, st') →
  ∃ evs errs,
    trace st' = trace st ++ evs ∧
    chat_rendered evs = as_markdown (chat_history (session_state st')) ++ errs ∧
    (errs = [] ∨ ∃ e, errs = [error_message e]) ∧
    (errs ≠ [] ↔
     ∃ q, submitted_query inp = Some q ∧
          last (chat_history (session_state st')) = Some ("user", q)).
Proof.
  intros Hv H. unfold chat_interface in H. unfold bind at 1 in H.
  unfold get_session in H. rewrite bool_decide_eq_true_2 in H by (by rewrite Hv).
  destruct (inspector_renders_no_chat (model_name inp) st)
    as (st1 & evs1 & Hrun1 & Hs1 & Ht1 & Hm1).
  destruct (debug_vision_renders_no_chat (model_name inp) (check_video_vision inp) st1)
    as (out2 & st2 & evs2 & Hrun2 & Hs2 & Ht2 & Hm2).
  unfold bind at 1 in H. rewrite Hrun1 in H.
  unfold bind at 1 in H. rewrite Hrun2 in H.
  destruct out2 as [[]|e]; [|done].
  unfold bind at 1 in H. unfold get_session in H. unfold bind at 1 in H.
  rewrite display_history_run in H.
  set (evs3 := map (λ turn : string * string,
                      (session_state st2,
                       EShow (ChatMessage turn.1) KMarkdown turn.2))
                   (chat_history (session_state st2))) in H.
  assert (chat_rendered evs3 = as_markdown (chat_history (session_state st))) as Hm3
    by (subst evs3; by rewrite chat_rendered_replay, Hs2, Hs1).
  clearbody evs3.
  match type of H with context [chat_input client _ _ ?s] => set (st3 := s) in H end.
  destruct (chat_input_renders inp st3)
    as (st4 & evs4 & added & errs & Hrun4 & Ht4 & Hh4 & Hm4 & Hcase).
  rewrite Hrun4 in H. injection H as <-. subst st3. simpl in Ht4, Hh4.
  rewrite Hs2, Hs1 in Hh4.
  exists (evs1 ++ evs2 ++ evs3 ++ evs4), errs.
  split; [by rewrite Ht4, Ht2, Ht1, <- !app_assoc|].
  split.
  { rewrite !chat_rendered_app, Hm1, Hm2, Hm3, Hm4, Hh4, as_markdown_app.
    simpl. by rewrite app_assoc. }
  rewrite Hh4. destruct (submitted_query inp) as [q|].
  - destruct Hcase as [[-> [e ->]]|[[answer ->] ->]].
    + split; [right; by eexists|]. split; [|done].
      intros _. exists q. split; [done|]. apply last_snoc.
    + split; [by left|]. split; [done|].
      intros (q' & _ & Hlast).
      replace (chat_history (session_state st) ++
               [("user", q); ("assistant", answer)])
        with ((chat_history (session_state st) ++ [("user", q)]) ++
              [("assistant", answer)]) in Hlast by (by rewrite <- app_assoc).
      rewrite last_snoc in Hlast. done.
  - destruct Hcase as [-> ->]. split; [by left|]. split; [done|].
    by intros (q' & Hq & _).
Qed.

(** X9.  With a key entered, when a run ends normally and a handle is
    stored, the chat area holds the transcript as it is stored at the end of
    the run, every turn once, in order, as markdown under its role; after it
    comes one more assistant message, holding the error, exactly when the
    question submitted in that run failed (the transcript then ends with
    that question), and nothing else is put into a chat message. *)
Theorem page_shows_stored_transcript (fuel : nat) (inp : Inputs) (st st' : State) :
  truthy (api_key inp) = true →
  script client os fuel inp st = Some (Ret tt, st') →
  is_Some (processed_video (session_state st')) →
  ∃ evs errs,
    trace st' = trace st ++ evs ∧
    chat_rendered evs = as_markdown (chat_history (session_state st')) ++ errs ∧
    (errs = [] ∨ ∃ e, errs = [error_message e]) ∧
    (errs ≠ [] ↔
     ∃ q, submitted_query inp = Some q ∧
          last (chat_history (session_state st')) = Some ("user", q)).
Proof.
  intros Hk H Hsome. unfold script in H. rewrite Hk in H. unfold bind at 1 in H.
  assert (∃ st1 evs1,
            match uploaded_file inp with
            | Some uploaded => on_upload client os fuel uploaded
            | None => ret tt
            end st = Some (Ret tt, st1) ∧
            trace st1 = trace st ++ evs1 ∧ chat_rendered evs1 = []) as
    (st1 & evs1 & Hup & Ht1 & Hm1).
  { destruct (uploaded_file inp) as [uploaded|].
    - destruct (on_upload client os fuel uploaded st) as [[[[]|e] st1]|] eqn:Hu;
        [|done|done].
      destruct (on_upload_events _ _ _ _ _ _ _ Hu) as (evs1 & Ht1 & Hf1).
      exists st1, evs1. split; [done|]. split; [done|].
      by apply ingestion_renders_no_chat.
    - exists st, []. by rewrite app_nil_r. }
  rewrite Hup in H.
  destruct (processed_video (session_state st1)) as [v|] eqn:Hv.
  - destruct (chat_interface_renders inp st1 v st' Hv H)
      as (evs2 & errs & Ht2 & Hm2 & Herr & Hiff).
    exists (evs1 ++ evs2), errs. split; [by rewrite Ht2, Ht1, app_assoc|].
    split; [by rewrite chat_rendered_app, Hm1|]. done.
  - destruct (chat_interface_closed client inp st1 Hv) as (k & msg & Hrun).
    rewrite Hrun in H. injection H as <-. simpl in Hsome. rewrite Hv in Hsome.
    by destruct Hsome.
Qed.

End Rendered.

Module MoreWitnesses.

Import Examples MoreExamples.

(** X1 on the first upload of a fresh session. *)
Lemma staged_file_removed_on_every_exit_witness :
  ∃ r st',
    process_video good_client roomy_os 5 clip_a fresh = Some (r, st') ∧
    disk st' !! temp_path = None ∧ disk st' = disk fresh.
Proof.
  assert (∃ st1, stage roomy_os clip_a fresh = Some (Ret temp_path, st1))
    as [st1 Hs] by (eexists; vm_compute; reflexivity).
  assert (∃ r, process_video good_client roomy_os 5 clip_a fresh = Some r)
    as [[r st'] Hrun] by (eexists; vm_compute; reflexivity).
  destruct (staged_file_removed_on_every_exit good_client roomy_os 5 clip_a fresh
              temp_path st1 r st' Hs Hrun) as (Hgone & _ & Hsame).
  exists r, st'. split; [exact Hrun|]. split; [exact Hgone|].
  apply Hsame. reflexivity.
Defined.

(** X2 on the same ingestion. *)
Lemma ingestion_calls_upload_then_refetches_witness :
  ∃ r st',
    process_video good_client roomy_os 5 clip_a fresh = Some (r, st') ∧
    session_state st' = session_state fresh.
Proof.
  assert (∃ r, process_video good_client roomy_os 5 clip_a fresh = Some r)
    as [[r st'] Hrun] by (eexists; vm_compute; reflexivity).
  exists r, st'. split; [exact Hrun|].
  exact (proj1 (ingestion_calls_upload_then_refetches good_client roomy_os 5 clip_a
                  fresh r st' Hrun)).
Defined.

(** X3: the service needs two re-fetches. *)
Lemma ingestion_cost_and_result_witness :
  ∃ st' evs,
    process_video good_client roomy_os 5 clip_a fresh
      = Some (Ret (Some (mkFile "files/abc123" "ACTIVE")), st') ∧
    trace st' = trace fresh ++ evs ∧
    refetches evs = 2%nat ∧ seconds_slept evs = 6%Z.
Proof.
  assert (∃ st_n, status_after good_client roomy_os 2 clip_a fresh
                    = Some (Ret (mkFile "files/abc123" "ACTIVE"), st_n))
    as [st_n Hn] by (eexists; vm_compute; reflexivity).
  refine (ingestion_cost_and_result good_client roomy_os 5 2 clip_a fresh
            (mkFile "files/abc123" "ACTIVE") st_n _ Hn _ _).
  - intros k Hk. destruct k as [|[|k]]; [| |lia];
      (eexists _, _; split; [vm_compute; reflexivity|reflexivity]).
  - discriminate.
  - lia.
Defined.

(** X5 on a ready session. *)
Lemma answered_ask_appends_both_turns_witness :
  ∃ st' evs,
    ask good_client "gemini-1.5-flash" "And at 0:10?" ready = Some (Ret tt, st') ∧
    trace st' = trace ready ++ evs ∧
    chat_history (session_state st') =
      chat_history (session_state ready) ++
      [("user", "And at 0:10?"); ("assistant", "A cat jumps.")].
Proof.
  destruct (answered_ask_appends_both_turns good_client "gemini-1.5-flash"
              "And at 0:10?" "A cat jumps." ready eq_refl)
    as (st' & evs & Hrun & Ht & Hh & _).
  by exists st', evs.
Defined.

(** X6: a question on a ready session, with no bound left for polling. *)
Lemma run_without_new_upload_only_appends_witness :
  ∃ out st' added,
    script good_client roomy_os 0 (question_on clip_a "And at 0:10?") ready
      = Some (out, st') ∧
    chat_history (session_state st') = chat_history (session_state ready) ++ added ∧
    (length added ≤ 2)%nat.
Proof.
  destruct (run_without_new_upload_only_appends good_client roomy_os 0
              (question_on clip_a "And at 0:10?") ready eq_refl)
    as (out & st' & added & Hrun & _ & _ & _ & Hh & Hl & _).
  by exists out, st', added.
Defined.



(** X9: a question on a ready session, once answered and once while the
    service is down. *)
Lemma page_shows_stored_transcript_witness :
  (∃ st' evs,
     script good_client roomy_os 0 (question_on clip_a "And at 0:10?") ready
       = Some (Ret tt, st') ∧
     trace st' = trace ready ++ evs ∧
     chat_rendered evs = as_markdown (chat_history (session_state st'))) ∧
  (∃ st' evs e,
     script mute_client roomy_os 0 (question_on clip_a "And at 0:10?") ready
       = Some (Ret tt, st') ∧
     trace st' = trace ready ++ evs ∧
     chat_rendered evs =
       as_markdown (chat_history (session_state st')) ++ [error_message e]).
Proof.
  split.
  - assert (∃ st', script good_client roomy_os 0
                     (question_on clip_a "And at 0:10?") ready = Some (Ret tt, st') ∧
                   is_Some (processed_video (session_state st')) ∧
                   last (chat_history (session_state st'))
                     = Some ("assistant", "A cat jumps."))
      as (st' & Hrun & Hsome & Hlast)
      by (eexists; split; [vm_compute; reflexivity|split; [by eexists|reflexivity]]).
    destruct (page_shows_stored_transcript good_client roomy_os 0
                (question_on clip_a "And at 0:10?") ready st' eq_refl Hrun Hsome)
      as (evs & errs & Ht & Hshown & Herr & Hiff).
    exists st', evs. split; [exact Hrun|]. split; [exact Ht|].
    destruct Herr as [->|[e ->]].
    + by rewrite app_nil_r in Hshown.
    + exfalso. destruct (proj1 Hiff) as (q & _ & Hq); [done|].
      rewrite Hlast in Hq. discriminate.
  - assert (∃ st', script mute_client roomy_os 0
                     (question_on clip_a "And at 0:10?") ready = Some (Ret tt, st') ∧
                   is_Some (processed_video (session_state st')) ∧
                   last (chat_history (session_state st'))
                     = Some ("user", "And at 0:10?"))
      as (st' & Hrun & Hsome & Hlast)
      by (eexists; split; [vm_compute; reflexivity|split; [by eexists|reflexivity]]).
    destruct (page_shows_stored_transcript mute_client roomy_os 0
                (question_on clip_a "And at 0:10?") ready st' eq_refl Hrun Hsome)
      as (evs & errs & Ht & Hshown & Herr & Hiff).
    destruct Herr as [->|[e ->]].
    + exfalso. apply (proj2 Hiff); [|done].
      exists "And at 0:10?". split; [reflexivity|exact Hlast].
    + by exists st', evs, e.
Defined.

(** X10: a session that uploads a clip and asks about it. *)
Lemma session_stays_well_formed_witness :
  ∃ st',
    reruns good_client roomy_os 5
      [upload_of clip_a; question_on clip_a "What happens at 0:05?"] fresh
      = Some st' ∧
    session_ok (session_state st').
Proof.
  assert (∃ st', reruns good_client roomy_os 5
                   [upload_of clip_a; question_on clip_a "What happens at 0:05?"]
                   fresh = Some st')
    as [st' Hrun] by (eexists; vm_compute; reflexivity).
  exists st'. split; [exact Hrun|].
  exact (session_stays_well_formed good_client roomy_os 5 _ ∅ [] st' Hrun).
Defined.

(** X11: a second clip uploaded to a ready session. *)
Lemma first_run_uses_new_handle_witness :
  ∃ out st' added,
    script good_client roomy_os 5 (upload_of clip_b) ready = Some (out, st') ∧
    session_state st' =
      {| chat_history := added;
         processed_video := Some handle_a;
         current_file_name := Some "b.mp4" |}.
Proof.
  assert (∃ st1, process_video good_client roomy_os 5 clip_b (begin_ingest clip_b ready)
                   = Some (Ret (Some handle_a), st1))
    as [st1 Hpv] by (eexists; vm_compute; reflexivity).
  assert (current_file_name (session_state ready) ≠ Some (upload_name clip_b))
    as Hnew by discriminate.
  destruct (first_run_uses_new_handle good_client roomy_os 5 (upload_of clip_b)
              clip_b ready handle_a st1 eq_refl eq_refl Hnew Hpv)
    as (out & st' & evs & added & Hrun & _ & Hs & _).
  exists out, st', added. split; [exact Hrun|exact Hs].
Defined.

(** X12: ten seconds' worth of tokens. *)
Lemma whole_seconds_shown_exactly_witness :
  ∃ st', inspector good_client "gemini-1.5-flash" ready = Some (Ret tt, st').
Proof.
  destruct (whole_seconds_shown_exactly good_client "gemini-1.5-flash" ready 10
              eq_refl) as (st' & Hrun & _); [split; [lia|reflexivity]|].
  by exists st'.
Defined.

(** X13: a service that refuses the upload. *)
Lemma upload_error_propagates_witness :
  ∃ st' evs,
    process_video refusing_client roomy_os 0 clip_a fresh
      = Some (Raise "413 Request Entity Too Large", st') ∧
    disk st' !! temp_path = None ∧
    trace st' = trace fresh ++ evs ∧ calls_of evs = [FilesUpload temp_path].
Proof.
  assert (∃ st1, stage roomy_os clip_a fresh = Some (Ret temp_path, st1))
    as [st1 Hs] by (eexists; vm_compute; reflexivity).
  destruct (upload_error_propagates refusing_client roomy_os 0 clip_a fresh temp_path
              st1 "413 Request Entity Too Large" Hs eq_refl)
    as (st' & evs & Hrun & _ & Hgone & Ht & Hc).
  by exists st', evs.
Defined.

(** X14: a service that rejects the video. *)
Lemma run_after_failed_ingestion_witness :
  ∃ st1,
    script rejecting_client roomy_os 3 (upload_of clip_a) fresh =
      Some (Ret tt,
            {| session_state := cleared_session "a.mp4";
               disk := disk st1;
               trace := trace st1 ++
                 [(cleared_session "a.mp4",
                   EShow Page KWarning "Video upload failed. Please try again.")] |}).
Proof.
  assert (∃ st1, process_video rejecting_client roomy_os 3 clip_a
                   (begin_ingest clip_a fresh) = Some (Ret None, st1))
    as [st1 Hpv] by (eexists; vm_compute; reflexivity).
  assert (current_file_name (session_state fresh) ≠ Some (upload_name clip_a))
    as Hnew by discriminate.
  exists st1.
  exact (run_after_failed_ingestion rejecting_client roomy_os 3 (upload_of clip_a)
           clip_a fresh (Ret None) st1 eq_refl eq_refl Hnew Hpv).
Defined.

End MoreWitnesses.
